(** * Latency tracker: the sample store and the windowed percentile engine

    A shallow embedding of [storage.go], with the type declarations it
    uses, and of the handlers of [server.go], and the properties of the
    specification and of the code that concern them.

    Conventions of the embedding.
    - Go's [int] and [time.Duration] are 64-bit signed integers: they are
      [Z] here, and every arithmetic operation of the source that can leave
      the 64-bit range is followed by [wrap64].
    - [float64] is IEEE 754 binary64, taken from the Standard Library's
      [SpecFloat] with [prec = 53] and [emax = 1024].
    - A [time.Time] is an instant on an unbounded line of nanoseconds; the
      reading of the clock ([time.Now()]) is an argument [now] of the
      operations that read it.
    - The mutexes protect the operations against each other; the embedding
      is of one operation at a time, so [Lock]/[Unlock] do not appear.
    - A Go panic is the outcome [Panic] of the [exec] monad. *)

From Stdlib Require Import ZArith List Lia Bool Ascii SpecFloat.
From Stdlib Require Import Sorting.Permutation Sorting.Sorted.
From stdpp Require Import gmap strings.
Import ListNotations.

Local Open Scope Z_scope.

(** ** Machine integers *)

Definition int64_min : Z := - 2 ^ 63.
Definition int64_max : Z := 2 ^ 63 - 1.

(** Two's complement wrap-around of a 64-bit signed integer. *)
Definition wrap64 (z : Z) : Z := (z + 2 ^ 63) mod 2 ^ 64 - 2 ^ 63.

Definition is_int64 (z : Z) : Prop := int64_min <= z <= int64_max.

(** ** Outcomes: a value, or a run-time panic *)

Inductive exec (A : Type) : Type :=
| Done (a : A)
| Panic (msg : string).
Arguments Done {A} a.
Arguments Panic {A} msg.

Definition bind {A B : Type} (c : exec A) (k : A -> exec B) : exec B :=
  match c with
  | Done a => k a
  | Panic msg => Panic msg
  end.

Notation "x <-- c ;; k" := (bind c (fun x => k))
  (at level 100, c at next level, right associativity).

(** ** binary64 arithmetic *)

Module F64.

Definition prec : Z := 53.
Definition emax : Z := 1024.

(** [float64(z)] for an integer [z]: the nearest binary64. *)
Definition of_int (z : Z) : spec_float := binary_normalize prec emax z 0 false.

Definition div : spec_float -> spec_float -> spec_float := SFdiv prec emax.
Definition mul : spec_float -> spec_float -> spec_float := SFmul prec emax.

(** The integer [ceil (m * 2 ^ e)] for a signed mantissa [m]. *)
Definition ceilZ (m e : Z) : Z :=
  if 0 <=? e then m * 2 ^ e else - ((- m) / 2 ^ (- e)).

(** The integer [m * 2 ^ e] rounded toward zero. *)
Definition truncZ (m e : Z) : Z :=
  if 0 <=? e then m * 2 ^ e else Z.quot m (2 ^ (- e)).

Definition signed (s : bool) (m : positive) : Z :=
  if s then Z.neg m else Z.pos m.

(** [math.Ceil]: the least integral value not below [x]; zeros,
    infinities and NaN are returned as they are, and a negative argument
    above -1 gives the negative zero. *)
Definition Ceil (x : spec_float) : spec_float :=
  match x with
  | S754_finite s m e => binary_normalize prec emax (ceilZ (signed s m) e) 0 s
  | _ => x
  end.

(** The conversion [int(x)] of a [float64]: the fraction is discarded.
    Where the value does not fit in an [int] (or is an infinity or a NaN)
    the language leaves the result to the implementation; the definition
    gives what the amd64 conversion instruction produces, the minimum
    integer. *)
Definition to_int (x : spec_float) : Z :=
  match x with
  | S754_zero _ => 0
  | S754_finite s m e =>
      let z := truncZ (signed s m) e in
      if (int64_min <=? z) && (z <=? int64_max) then z else int64_min
  | S754_infinity _ | S754_nan => int64_min
  end.

End F64.

(** ** The percentile engine *)

(** [int(math.Ceil(y)) - 1] for a [float64] [y]. *)
Definition rankBelow (y : spec_float) : Z :=
  wrap64 (F64.to_int (F64.Ceil y) - 1).

(** [float64(percentile) / 100.0]. *)
Definition fraction (percentile : Z) : spec_float :=
  F64.div (F64.of_int percentile) (F64.of_int 100).

(** The index computed by [computePercentile] for a sequence of [N]
    elements, before the two clamps:
    [int(math.Ceil((float64(percentile) / 100.0) * float64(N))) - 1]. *)
Definition rawIndex (N percentile : Z) : Z :=
  rankBelow (F64.mul (fraction percentile) (F64.of_int N)).

(** The two [if] statements that follow. *)
Definition clampIndex (N idx : Z) : Z :=
  let idx := if idx <? 0 then 0 else idx in
  if idx >=? N then N - 1 else idx.

Definition percentileIndex (N percentile : Z) : Z :=
  clampIndex N (rawIndex N percentile).

(** [latencies[i]]: an index out of range panics. *)
Definition index {A : Type} (l : list A) (i : Z) : exec A :=
  if (i <? 0) || (Z.of_nat (length l) <=? i) then Panic "index out of range"
  else match nth_error l (Z.to_nat i) with
       | Some a => Done a
       | None => Panic "index out of range"
       end.

(** [computePercentile]: [None] is the nil pointer, [Some v] a pointer to
    a copy of the selected value. *)
Definition computePercentile (latencies : list Z) (percentile : Z)
  : exec (option Z) :=
  let N := Z.of_nat (length latencies) in
  if N =? 0 then Done None
  else
    val <-- index latencies (percentileIndex N percentile) ;;
    Done (Some val).

(** ** The data model *)

(** [time.Minute], in nanoseconds. *)
Definition Minute : Z := 60 * 1000000000.

(** [t.Add(d)] and [t.After(u)] on instants. *)
Definition Add (t d : Z) : Z := t + d.
Definition After (t u : Z) : bool := u <? t.

Record MetricConfig : Type := {
  ID : string;
  Window : Z;
  Percentiles : list Z;
  MaxSamples : Z;
  CreatedAt : Z
}.

Record LatencySample : Type := {
  LatencyVal : Z;
  RecordedAt : Z
}.

Record Metric : Type := {
  Config : MetricConfig;
  Samples : list LatencySample
}.

(** The backing map of the store is [None] when it is the nil map, as in
    the zero value [MetricStore{}]. The store owns its metrics: the entry
    of an identifier holds the metric itself. *)
Record MetricStore : Type := {
  Metrics : option (gmap string Metric)
}.

Record MetricSnapshot : Type := {
  MetricID : string;
  SnapshotWindow : Z;
  Count : Z;
  P50 : option Z;
  P95 : option Z;
  P99 : option Z
}.

(** ** Metric *)

(** [RecordLatency]: the metric after the call and the returned flag. *)
Definition RecordLatency (now : Z) (m : Metric) (latency : Z) : Metric * bool :=
  if latency <=? 0 then (m, false)
  else
    let sample := {| LatencyVal := latency; RecordedAt := now |} in
    let samples := Samples m ++ [sample] in
    let samples :=
      if Z.of_nat (length samples) >? MaxSamples (Config m)
      then skipn 1 samples
      else samples in
    ({| Config := Config m; Samples := samples |}, true).

(** A run of record calls, each with its latency and the instant at which
    it reads the clock. *)
Definition recordAll (m : Metric) (calls : list (Z * Z)) : Metric :=
  fold_left (fun m c => fst (RecordLatency (snd c) m (fst c))) calls m.

(** [sort.Slice] with the comparison [latencies[i] < latencies[j]]: the
    ascending arrangement of the values, which for integers is unique. *)
Fixpoint insertSorted (x : Z) (l : list Z) : list Z :=
  match l with
  | [] => [x]
  | y :: l' => if x <=? y then x :: l else y :: insertSorted x l'
  end.

Definition sortSlice (l : list Z) : list Z := fold_right insertSorted [] l.

(** The instant before or at which a sample is outside the window. *)
Definition cutoffOf (now : Z) (m : Metric) : Z :=
  Add now (wrap64 (- Window (Config m))).

(** The first loop of [CalculateLatency]. *)
Definition activeSamples (now : Z) (m : Metric) : list LatencySample :=
  let cutoff := cutoffOf now m in
  fold_left
    (fun active record =>
       if After (RecordedAt record) cutoff then active ++ [record] else active)
    (Samples m) [].

Definition CalculateLatency (now : Z) (m : Metric) : exec MetricSnapshot :=
  let active := activeSamples now m in
  let snapshot :=
    {| MetricID := ID (Config m);
       SnapshotWindow := Window (Config m);
       Count := Z.of_nat (length active);
       P50 := None; P95 := None; P99 := None |} in
  if Z.of_nat (length active) >? 0 then
    let latencies := fold_left (fun ls l => ls ++ [LatencyVal l]) active [] in
    let latencies := sortSlice latencies in
    p50 <-- computePercentile latencies 50 ;;
    p95 <-- computePercentile latencies 95 ;;
    p99 <-- computePercentile latencies 99 ;;
    Done {| MetricID := MetricID snapshot;
            SnapshotWindow := SnapshotWindow snapshot;
            Count := Count snapshot;
            P50 := p50; P95 := p95; P99 := p99 |}
  else Done snapshot.

(** ** Metric store *)

Definition createNewMetricStore : MetricStore := {| Metrics := Some ∅ |}.

(** [defaultMetricConfig], from the server's file. *)
Definition defaultMetricConfig (now : Z) (id : string) : MetricConfig :=
  {| ID := id; Window := Minute; Percentiles := []; MaxSamples := 100;
     CreatedAt := now |}.

(** [metrics[id]] read with the comma-ok form: a nil map has no entry. *)
Definition mapLookup (metrics : option (gmap string Metric)) (id : string)
  : option Metric :=
  match metrics with
  | None => None
  | Some g => g !! id
  end.

(** [metrics[id] = metric]: the assignment panics on a nil map. *)
Definition mapStore (metrics : option (gmap string Metric)) (id : string)
    (metric : Metric) : exec (option (gmap string Metric)) :=
  match metrics with
  | None => Panic "assignment to entry in nil map"
  | Some g => Done (Some (<[id := metric]> g))
  end.

(** [CreateMetric] returns the store after the call and the pair
    [(metric, err)]. *)
Definition CreateMetric (ms : MetricStore) (config : MetricConfig)
  : exec (MetricStore * (option Metric * option string)) :=
  if Window config <=? 0 then
    Done (ms, (None, Some "'Window' can't be less than 1!"%string))
  else if MaxSamples config <=? 0 then
    Done (ms, (None, Some "'MaxSamples' can't be less than 1!"%string))
  else
    let metric := {| Config := config; Samples := [] |} in
    metrics <-- mapStore (Metrics ms) (ID config) metric ;;
    Done ({| Metrics := metrics |}, (Some metric, None)).

Definition getMetric (ms : MetricStore) (id : string) : option Metric :=
  mapLookup (Metrics ms) id.

Definition getOrCreateMetric (now : Z) (ms : MetricStore) (id : string)
  : exec (MetricStore * Metric) :=
  match mapLookup (Metrics ms) id with
  | Some metric => Done (ms, metric)
  | None =>
      let metric :=
        {| Config := defaultMetricConfig now id; Samples := [] |} in
      let ms := {| Metrics := Some ∅ |} in
      metrics <-- mapStore (Metrics ms) id metric ;;
      Done ({| Metrics := metrics |}, metric)
  end.

(** ** The HTTP server

    The handlers of [server.go], on top of the store. What the embedding
    keeps of the [net/http] and [encoding/json] libraries:
    - a request is its method, the path of its URL and its body;
    - the decoding of the body into a [recordLatencyRequest] is the
      argument [decode], which gives [None] where [Decode] returns an
      error;
    - the response is what a handler has written to a new
      [http.ResponseWriter]: the status code, the headers, and the body,
      where a JSON body is the encoded value itself;
    - every call site of [time.Now()] reached from a handler has its own
      reading of the clock, an argument of the handler (indexed by the
      iteration for the call site in a loop);
    - the order in which [range] visits a map is the argument
      [rangeOrder]. *)

Definition StatusOK : Z := 200.
Definition StatusAccepted : Z := 202.
Definition StatusBadRequest : Z := 400.
Definition StatusNotFound : Z := 404.
Definition StatusMethodNotAllowed : Z := 405.

Definition MethodGet : string := "GET".
Definition MethodPost : string := "POST".

Record Request : Type := {
  Method : string;
  URLPath : string;
  Body : string
}.

Record recordLatencyRequest : Type := {
  LatencyNs : Z
}.

Inductive body : Type :=
| NoBody
| Text (text : string)
| EncodedSnapshot (snapshot : MetricSnapshot)
| EncodedSnapshots (snapshots : list MetricSnapshot).

Record Response : Type := {
  Code : Z;
  Header : gmap string string;
  ResponseBody : body
}.

(** [http.Error]: the two headers, the status code and the message on a
    line of its own. *)
Definition httpError (error : string) (code : Z) : Response :=
  {| Code := code;
     Header := {[ "Content-Type"%string := "text/plain; charset=utf-8"%string;
                  "X-Content-Type-Options"%string := "nosniff"%string ]};
     ResponseBody := Text (error ++ String "010"%char EmptyString) |}.

(** [http.NotFound]. *)
Definition NotFound : Response := httpError "404 page not found" StatusNotFound.

(** [w.WriteHeader(code)] and nothing else. *)
Definition writeHeader (code : Z) : Response :=
  {| Code := code; Header := ∅; ResponseBody := NoBody |}.

(** The header [Content-Type: application/json] followed by
    [json.NewEncoder(w).Encode(v)]: the first write gives the status 200. *)
Definition writeJSON (v : body) : Response :=
  {| Code := StatusOK;
     Header := {[ "Content-Type"%string := "application/json"%string ]};
     ResponseBody := v |}.

(** [strings.Trim(s, cutset)] and [strings.Split(s, sep)], for a cutset
    and a separator of one byte. [Split] of the empty string is the
    sequence of one empty string. *)
Fixpoint TrimLeft (s : string) (c : ascii) : string :=
  match s with
  | EmptyString => EmptyString
  | String a s' => if Ascii.eqb a c then TrimLeft s' c else s
  end.

Fixpoint TrimRight (s : string) (c : ascii) : string :=
  match s with
  | EmptyString => EmptyString
  | String a s' =>
      match TrimRight s' c with
      | EmptyString =>
          if Ascii.eqb a c then EmptyString else String a EmptyString
      | String b t => String a (String b t)
      end
  end.

Definition Trim (s : string) (c : ascii) : string :=
  TrimLeft (TrimRight s c) c.

Fixpoint Split (s : string) (sep : ascii) : list string :=
  match s with
  | EmptyString => [EmptyString]
  | String a s' =>
      if Ascii.eqb a sep then EmptyString :: Split s' sep
      else match Split s' sep with
           | [] => [String a EmptyString]
           | h :: t => String a h :: t
           end
  end.

Record Server : Type := {
  store : MetricStore
}.

Definition newServer (st : MetricStore) : Server := {| store := st |}.

(** The server of [main], on the zero value of the store. *)
Definition mainServer : Server := {| store := {| Metrics := None |} |}.

(** The map holds a pointer to each metric: after a call that changes the
    metric found under [id], the entry of [id] is the changed metric. *)
Definition mapUpdate (metrics : option (gmap string Metric)) (id : string)
    (metric : Metric) : option (gmap string Metric) :=
  match metrics with
  | None => None
  | Some g => Some (<[id := metric]> g)
  end.

(** The first loop of [handleMetrics]. *)
Definition rangeValues
    (rangeOrder : gmap string Metric -> list (string * Metric))
    (metrics : option (gmap string Metric)) : list Metric :=
  match metrics with
  | None => []
  | Some g => fold_left (fun ms e => ms ++ [snd e]) (rangeOrder g) []
  end.

(** The second loop of [handleMetrics]; the snapshot appended at position
    [i] reads the clock as [clock i]. *)
Definition snapshotsOf (clock : nat -> Z) (metrics : list Metric)
  : exec (list MetricSnapshot) :=
  fold_left
    (fun acc m =>
       snapshots <-- acc ;;
       snapshot <-- CalculateLatency (clock (length snapshots)) m ;;
       Done (snapshots ++ [snapshot]))
    metrics (Done []).

Definition handleMetrics
    (rangeOrder : gmap string Metric -> list (string * Metric))
    (clock : nat -> Z) (s : Server) (r : Request) : exec (Server * Response) :=
  if negb (String.eqb (Method r) MethodGet) then
    Done (s, httpError "Only 'GET' requests are processed at this endpoint!"
                       StatusMethodNotAllowed)
  else
    let metrics := rangeValues rangeOrder (Metrics (store s)) in
    snapshots <-- snapshotsOf clock metrics ;;
    Done (s, writeJSON (EncodedSnapshots snapshots)).

Definition handleRecordLatency
    (decode : string -> option recordLatencyRequest)
    (nowCreate nowRecord : Z) (s : Server) (r : Request) (id : string)
  : exec (Server * Response) :=
  match decode (Body r) with
  | None => Done (s, httpError "invalid JSON body" StatusBadRequest)
  | Some rq =>
      if LatencyNs rq <=? 0 then
        Done (s, httpError "'latency_ns' should not have a negative/zero value"
                           StatusBadRequest)
      else
        found <-- getOrCreateMetric nowCreate (store s) id ;;
        let m := fst (RecordLatency nowRecord (snd found) (LatencyNs rq)) in
        Done ({| store :=
                   {| Metrics := mapUpdate (Metrics (fst found)) id m |} |},
              writeHeader StatusAccepted)
  end.

Definition handleGetMetric (now : Z) (s : Server) (r : Request) (id : string)
  : exec (Server * Response) :=
  match getMetric (store s) id with
  | None => Done (s, httpError "Metric not found!" StatusNotFound)
  | Some metric =>
      snapshot <-- CalculateLatency now metric ;;
      Done (s, writeJSON (EncodedSnapshot snapshot))
  end.

Definition handleMetricsById
    (decode : string -> option recordLatencyRequest)
    (nowCreate nowRecord nowSnapshot : Z) (s : Server) (r : Request)
  : exec (Server * Response) :=
  let path := URLPath r in
  let comps := Split (Trim path "/"%char) "/"%char in
  if Z.of_nat (length comps) <? 2 then Done (s, NotFound)
  else
    id <-- index comps 1 ;;
    isRecord <--
      (if Z.of_nat (length comps) =? 3 then
         third <-- index comps 2 ;;
         Done (String.eqb third "latency"
               && String.eqb (Method r) MethodPost)
       else Done false) ;;
    if isRecord then handleRecordLatency decode nowCreate nowRecord s r id
    else if (Z.of_nat (length comps) =? 2)
            && String.eqb (Method r) MethodGet
    then handleGetMetric nowSnapshot s r id
    else Done (s, NotFound).

(** ** Rounding to nearest, ties to even, on scaled integers

    The binary64 operations round an exact value to the nearest
    representable one. For the proofs the exact value is read in units
    [2 ^ b], for a base exponent [b] below every exponent in play, as the
    fraction [V / D] of two integers ([D] is 1 for a product and the
    mantissa of the divisor for a quotient). *)

(** The number of binary digits of a positive integer. *)
Definition dg (v : Z) : Z := Z.log2 v + 1.

(** The exponent of the last place of a binary64 of magnitude [2 ^ e]. *)
Definition fexp64 (e : Z) : Z := Z.max (e - 53) (-1074).

(** The multiple of [U] nearest to [V], as a number of units, ties to the
    even one. *)
Definition rne (V U : Z) : Z :=
  match 2 * (V mod U) ?= U with
  | Lt => V / U
  | Eq => if Z.even (V / U) then V / U else V / U + 1
  | Gt => V / U + 1
  end.

(** The unit of the last place of [V / D], in units [2 ^ b]. *)
Definition ulp (D b V : Z) : Z := 2 ^ (fexp64 (dg (V / D) + b) - b).

(** [V / D] rounded to binary64, in units [2 ^ b]. *)
Definition rounded (D b V : Z) : Z := rne V (ulp D b V * D) * ulp D b V.

(** The record of a shifted mantissa, its round bit and its sticky bit
    locates [V] between two consecutive multiples of the unit [2 * H]:
    on the lower one, below the middle, on the middle, or above it. *)
Definition located (H V : Z) (mrs : shr_record) : Prop :=
  0 <= shr_m mrs /\
  match shr_r mrs, shr_s mrs with
  | false, false => V = shr_m mrs * (2 * H)
  | false, true => shr_m mrs * (2 * H) < V < shr_m mrs * (2 * H) + H
  | true, false => V = shr_m mrs * (2 * H) + H
  | true, true => shr_m mrs * (2 * H) + H < V < (shr_m mrs + 1) * (2 * H)
  end.

(** The rounding of the exact value [M * 2 ^ E] by [binary_round_aux]. *)
Definition roundExact (M : positive) (E : Z) : spec_float :=
  binary_round_aux 53 1024 false (Z.pos M) E loc_Exact.

(** The mantissa of the binary64 100.0, which is [hundred64 * 2 ^ -46]. *)
Definition hundred64 : positive := 7036874417766400.

(** A binary64 that is a zero, a finite value or an infinity, of positive
    sign. *)
Definition nonneg (x : spec_float) : Prop :=
  match x with
  | S754_zero s | S754_infinity s | S754_finite s _ _ => s = false
  | S754_nan => False
  end.

(** The order of two positive binary64, each an infinity or a finite value
    with a mantissa of 53 digits. *)
Definition ordered (x1 x2 : spec_float) : Prop :=
  match x1, x2 with
  | S754_finite false m1 e1, S754_finite false m2 e2 =>
      2 ^ 52 <= Z.pos m1 /\ 2 ^ 52 <= Z.pos m2 /\
      Z.pos m1 * 2 ^ (e1 - Z.min e1 e2) <= Z.pos m2 * 2 ^ (e2 - Z.min e1 e2)
  | S754_finite false m1 _, S754_infinity false => 2 ^ 52 <= Z.pos m1
  | S754_infinity false, S754_infinity false => True
  | _, _ => False
  end.

(** ** Definitions that follow the words of the specification *)

(** Nearest rank, ceiling method: [ceil ((p / 100) * N) - 1], clamped to
    [[0, N - 1]], in exact arithmetic. *)
Definition nearestRankIndex (N p : Z) : Z :=
  clampIndex N (- ((- (p * N)) / 100) - 1).

(** The [n] most recent elements of a sequence whose newest element is at
    the tail (all of them when there are fewer than [n]). *)
Definition lastN {A : Type} (n : Z) (l : list A) : list A :=
  skipn (length l - Z.to_nat n) l.

(** The sample stored by a record call. *)
Definition sampleOf (c : Z * Z) : LatencySample :=
  {| LatencyVal := fst c; RecordedAt := snd c |}.

(** The samples of a metric that are inside the window at [now]. *)
Definition insideWindow (now : Z) (m : Metric) (s : LatencySample) : bool :=
  now - Window (Config m) <? RecordedAt s.

(** The check that for the length [n] the percentiles of the snapshot
    select the nearest rank. *)
Definition ranksAgree (n : nat) : bool :=
  forallb
    (fun p => percentileIndex (Z.of_nat n) p =? nearestRankIndex (Z.of_nat n) p)
    [50; 95; 99].

(** The latencies 1ns, 2ns, ..., 100ns, ascending. *)
Definition hundred : list Z := map Z.of_nat (seq 1 100).

(** A store in which "checkout" is registered with one sample. *)
Definition checkoutMetric : Metric :=
  {| Config := defaultMetricConfig 0 "checkout";
     Samples := [sampleOf (10000000, 1)] |}.

Definition checkoutStore : MetricStore :=
  {| Metrics := Some {[ "checkout"%string := checkoutMetric ]} |}.

(** The zero-value store of the process bootstrap. *)
Definition zeroStore : MetricStore := {| Metrics := None |}.

(** The samples are in the order of their timestamps. *)
Definition chronological (samples : list LatencySample) : Prop :=
  Sorted (fun a b => RecordedAt a <= RecordedAt b) samples.

(** The ascending latencies over which a snapshot at [now] takes its
    percentiles. *)
Definition activeLatencies (now : Z) (m : Metric) : list Z :=
  sortSlice (map LatencyVal (activeSamples now m)).

(** What the store keeps of each registered metric: it is registered
    under its own identifier, its window and its maximum are positive, and
    it holds no more samples than its maximum. *)
Definition wellFormed (id : string) (m : Metric) : Prop :=
  ID (Config m) = id /\ 0 < Window (Config m) /\ 0 < MaxSamples (Config m) /\
  Z.of_nat (length (Samples m)) <= MaxSamples (Config m).

Definition storeInvariant (ms : MetricStore) : Prop :=
  forall id m, getMetric ms id = Some m -> wellFormed id m.

(** The byte [c] does not occur in [s]. *)
Fixpoint without (c : ascii) (s : string) : bool :=
  match s with
  | EmptyString => true
  | String a s' => negb (Ascii.eqb a c) && without c s'
  end.

(** The paths of the two endpoints of a metric. *)
Definition metricPath (id : string) : string := "/metrics/" ++ id.
Definition latencyPath (id : string) : string :=
  "/metrics/" ++ id ++ "/latency".

(** The metrics of a store, listed by [map_to_list]. *)
Definition registeredMetrics (ms : MetricStore) : list Metric :=
  match Metrics ms with
  | None => []
  | Some g => map snd (map_to_list g)
  end.

(** The body [{"latency_ns": 5000000}], and a decoder for the examples that
    agrees with [encoding/json] on it, on [{}] and on the text
    [{invalid json}] of the tests. *)
Definition fiveMsBody : string :=
  "{" ++ String "034"%char "latency_ns" ++ String "034"%char ": 5000000}".

Definition decodeExample (body : string) : option recordLatencyRequest :=
  if String.eqb body fiveMsBody then Some {| LatencyNs := 5000000 |}
  else if String.eqb body "{}" then Some {| LatencyNs := 0 |}
  else None.

(** ** The percentile engine: safety *)

Lemma clampIndex_range (N idx : Z) : 0 < N -> 0 <= clampIndex N idx < N.
Proof.
  intros HN. unfold clampIndex.
  destruct (idx <? 0) eqn:Hneg.
  - destruct (0 >=? N) eqn:Hge; lia.
  - destruct (idx >=? N) eqn:Hge; lia.
Qed.

Lemma clampIndex_mono (N i j : Z) : i <= j -> clampIndex N i <= clampIndex N j.
Proof.
  intros Hij. unfold clampIndex.
  destruct (i <? 0) eqn:Hi; destruct (j <? 0) eqn:Hj;
    repeat match goal with
           | |- context [?a >=? ?b] => destruct (a >=? b) eqn:?
           end; lia.
Qed.

Lemma index_Done {A : Type} (l : list A) (i : Z) :
  0 <= i < Z.of_nat (length l) ->
  exists a, index l i = Done a /\ nth_error l (Z.to_nat i) = Some a.
Proof.
  intros Hi. unfold index.
  replace ((i <? 0) || (Z.of_nat (length l) <=? i)) with false
    by (symmetry; apply orb_false_iff; lia).
  destruct (nth_error l (Z.to_nat i)) as [a|] eqn:Hnth.
  - now exists a.
  - apply nth_error_None in Hnth. lia.
Qed.

Lemma computePercentile_index (latencies : list Z) (percentile : Z) :
  latencies <> [] ->
  exists v,
    computePercentile latencies percentile = Done (Some v) /\
    nth_error latencies
      (Z.to_nat (percentileIndex (Z.of_nat (length latencies)) percentile))
    = Some v.
Proof.
  intros Hne. unfold computePercentile.
  assert (HN : 0 < Z.of_nat (length latencies))
    by (destruct latencies; [congruence | simpl; lia]).
  replace (Z.of_nat (length latencies) =? 0) with false by (symmetry; lia).
  destruct (index_Done latencies
              (percentileIndex (Z.of_nat (length latencies)) percentile))
    as (v & Hv & Hnth).
  - apply clampIndex_range, HN.
  - exists v. rewrite Hv. now split.
Qed.

(** C9. For a non-empty sequence and any integer percentile argument, also
    one outside (0,100], the index used by [computePercentile] lies in
    [[0, N-1]]; the call does not panic and returns an element of the
    sequence. *)
Theorem computePercentile_total (latencies : list Z) (percentile : Z) :
  latencies <> [] ->
  0 <= percentileIndex (Z.of_nat (length latencies)) percentile
    < Z.of_nat (length latencies) /\
  exists v,
    computePercentile latencies percentile = Done (Some v) /\ In v latencies.
Proof.
  intros Hne. split.
  - apply clampIndex_range. destruct latencies; [congruence | simpl; lia].
  - destruct (computePercentile_index latencies percentile Hne)
      as (v & Hv & Hnth).
    exists v. split; [exact Hv |]. eapply nth_error_In, Hnth.
Qed.

Lemma computePercentile_total_witness :
  [10; 20; 30] <> [] /\
  (0 <= percentileIndex (Z.of_nat (length [10; 20; 30])) (-5)
     < Z.of_nat (length [10; 20; 30]) /\
   exists v, computePercentile [10; 20; 30] (-5) = Done (Some v) /\
             In v [10; 20; 30]).
Proof.
  split; [discriminate | apply computePercentile_total; discriminate].
Defined.

(** ** The percentile engine: the selected rank *)

(** With one element every percentile selects it. *)
Lemma computePercentile_singleton (d percentile : Z) :
  computePercentile [d] percentile = Done (Some d).
Proof.
  destruct (computePercentile_index [d] percentile) as (v & Hv & Hnth);
    [discriminate |].
  pose proof (clampIndex_range 1 (rawIndex 1 percentile) ltac:(lia)) as Hr.
  change (Z.of_nat (length [d])) with 1 in Hnth.
  unfold percentileIndex in Hnth.
  replace (clampIndex 1 (rawIndex 1 percentile)) with 0 in Hnth by lia.
  simpl in Hnth. congruence.
Qed.

(** The scenario of the specification: 10ms, 20ms and 30ms, in
    nanoseconds. *)
Lemma computePercentile_scenario :
  computePercentile [10000000; 20000000; 30000000] 50 = Done (Some 20000000) /\
  computePercentile [10000000; 20000000; 30000000] 95 = Done (Some 30000000) /\
  computePercentile [10000000; 20000000; 30000000] 99 = Done (Some 30000000).
Proof. vm_compute. repeat split. Qed.

(** C2. On the ascending sequence 1ns..100ns the nearest rank of p = 7 is
    the index [ceil (0.07 * 100) - 1 = 6], the value 7ns;
    [computePercentile] selects index 7, the value 8ns: the quotient
    [float64(7) / 100.0] is above 7/100 and its product with 100 rounds
    above 7. *)
Theorem computePercentile_rank7_of_100 :
  nearestRankIndex 100 7 = 6 /\
  index hundred (nearestRankIndex 100 7) = Done 7 /\
  percentileIndex 100 7 = 7 /\
  computePercentile hundred 7 = Done (Some 8).
Proof. vm_compute. repeat split. Qed.

Lemma forallb_seq (f : nat -> bool) (a n : nat) :
  forallb f (seq a n) = true ->
  forall i : nat, (a <= i < a + n)%nat -> f i = true.
Proof.
  intros Hall i Hi. rewrite forallb_forall in Hall.
  apply Hall, in_seq. exact Hi.
Qed.

Lemma ranksAgree_100 : forallb ranksAgree (seq 1 100) = true.
Proof. vm_compute. reflexivity. Qed.

(** The percentiles 50, 95 and 99 of the snapshot select the nearest rank
    for every length up to 100, the default maximum of a metric. *)
Lemma percentileIndex_snapshot_exact (N p : Z) :
  1 <= N <= 100 -> In p [50; 95; 99] ->
  percentileIndex N p = nearestRankIndex N p.
Proof.
  intros HN Hp.
  pose proof (forallb_seq ranksAgree 1 100 ranksAgree_100 (Z.to_nat N)
                ltac:(lia)) as Hrow.
  unfold ranksAgree in Hrow. rewrite forallb_forall in Hrow.
  specialize (Hrow p Hp). apply Z.eqb_eq in Hrow.
  now replace (Z.of_nat (Z.to_nat N)) with N in Hrow by lia.
Qed.

(** ** Metric: recording *)

Lemma RecordLatency_rejects (now : Z) (m : Metric) (latency : Z) :
  latency <= 0 -> RecordLatency now m latency = (m, false).
Proof.
  intros Hle. unfold RecordLatency.
  now replace (latency <=? 0) with true by (symmetry; lia).
Qed.

Lemma RecordLatency_accepts (now : Z) (m : Metric) (latency : Z) :
  0 < latency ->
  RecordLatency now m latency =
  ({| Config := Config m;
      Samples :=
        let samples := Samples m ++ [sampleOf (latency, now)] in
        if Z.of_nat (length samples) >? MaxSamples (Config m)
        then skipn 1 samples else samples |}, true).
Proof.
  intros Hpos. unfold RecordLatency.
  now replace (latency <=? 0) with false by (symmetry; lia).
Qed.

(** C5. A latency that is zero or negative is rejected: the call returns
    [false] and the metric is the one before the call. A strictly positive
    latency is accepted: the call returns [true], the configuration is
    kept, and the sample is appended at the tail of the sequence, from
    which at most the oldest sample is then evicted; when the metric
    retains at least one sample the new one is the last of the sequence. *)
Theorem RecordLatency_validates (now : Z) (m : Metric) (latency : Z) :
  (latency <= 0 -> RecordLatency now m latency = (m, false)) /\
  (0 < latency ->
   exists m' evicted,
     RecordLatency now m latency = (m', true) /\
     Config m' = Config m /\
     evicted ++ Samples m' = Samples m ++ [sampleOf (latency, now)] /\
     (length evicted <= 1)%nat /\
     (1 <= MaxSamples (Config m) ->
      List.last (Samples m') (sampleOf (latency, now))
      = sampleOf (latency, now) /\
      Samples m' <> [])).
Proof.
  split; [apply RecordLatency_rejects |].
  intros Hpos. rewrite (RecordLatency_accepts now m latency Hpos).
  set (s := sampleOf (latency, now)).
  cbv zeta.
  destruct (Z.of_nat (length (Samples m ++ [s])) >? MaxSamples (Config m))
    eqn:Hfull.
  - exists {| Config := Config m; Samples := skipn 1 (Samples m ++ [s]) |},
      (firstn 1 (Samples m ++ [s])).
    simpl Samples; simpl Config.
    repeat split.
    + apply firstn_skipn.
    + rewrite length_firstn. lia.
    + destruct (Samples m) as [|a l];
        [apply Z.gtb_lt in Hfull; simpl in Hfull; lia |].
      change (skipn 1 ((a :: l) ++ [s])) with (l ++ [s]). apply last_last.
    + destruct (Samples m) as [|a l];
        [apply Z.gtb_lt in Hfull; simpl in Hfull; lia |].
      destruct l; discriminate.
  - exists {| Config := Config m; Samples := Samples m ++ [s] |}, [].
    simpl Samples; simpl Config.
    repeat split.
    + simpl. lia.
    + apply last_last.
    + destruct (Samples m); discriminate.
Qed.

Lemma RecordLatency_validates_witness :
  let m := {| Config := defaultMetricConfig 0 "checkout"; Samples := [] |} in
  (0 <= 0 -> RecordLatency 5 m 0 = (m, false)) /\
  (0 < 7 ->
   exists m' evicted,
     RecordLatency 5 m 7 = (m', true) /\
     Config m' = Config m /\
     evicted ++ Samples m' = Samples m ++ [sampleOf (7, 5)] /\
     (length evicted <= 1)%nat /\
     (1 <= MaxSamples (Config m) ->
      List.last (Samples m') (sampleOf (7, 5)) = sampleOf (7, 5) /\
      Samples m' <> [])).
Proof.
  intros m. split.
  - intros _. apply (proj1 (RecordLatency_validates 5 m 0)). lia.
  - apply (proj2 (RecordLatency_validates 5 m 7)).
Defined.

Lemma recordAll_snoc (m : Metric) (calls : list (Z * Z)) (c : Z * Z) :
  recordAll m (calls ++ [c])
  = fst (RecordLatency (snd c) (recordAll m calls) (fst c)).
Proof. unfold recordAll. now rewrite fold_left_app. Qed.

Lemma RecordLatency_Config (now : Z) (m : Metric) (latency : Z) :
  Config (fst (RecordLatency now m latency)) = Config m.
Proof. unfold RecordLatency. now destruct (latency <=? 0). Qed.

Lemma recordAll_Config (m : Metric) (calls : list (Z * Z)) :
  Config (recordAll m calls) = Config m.
Proof.
  induction calls as [|c calls IH] using rev_ind; [reflexivity |].
  now rewrite recordAll_snoc, RecordLatency_Config.
Qed.

Lemma lastN_all {A : Type} (n : Z) (l : list A) :
  Z.of_nat (length l) <= n -> lastN n l = l.
Proof.
  intros Hle. unfold lastN.
  now replace (length l - Z.to_nat n)%nat with 0%nat by lia.
Qed.

Lemma length_lastN {A : Type} (n : Z) (l : list A) :
  0 <= n -> Z.of_nat (length (lastN n l)) = Z.min n (Z.of_nat (length l)).
Proof. intros Hn. unfold lastN. rewrite length_skipn. lia. Qed.

(** Appending one element to the retained suffix and evicting the head when
    the bound is exceeded gives the retained suffix of the longer
    sequence. *)
Lemma lastN_snoc_evict {A : Type} (n : Z) (l : list A) (a : A) :
  0 <= n ->
  (if Z.of_nat (length (lastN n l ++ [a])) >? n
   then skipn 1 (lastN n l ++ [a])
   else lastN n l ++ [a])
  = lastN n (l ++ [a]).
Proof.
  intros Hn.
  pose proof (length_lastN n l Hn) as Hlen.
  rewrite length_app. cbn [length].
  unfold lastN in *. rewrite length_app. cbn [length].
  destruct (Z.of_nat (length (skipn (length l - Z.to_nat n) l) + 1) >? n)
    eqn:Hfull.
  - apply Z.gtb_lt in Hfull.
    replace (length l + 1 - Z.to_nat n)%nat
      with (1 + (length l - Z.to_nat n))%nat by lia.
    rewrite <- skipn_skipn. f_equal.
    rewrite skipn_app.
    now replace (length l - Z.to_nat n - length l)%nat with 0%nat by lia.
  - rewrite Z.gtb_ltb in Hfull. apply Z.ltb_ge in Hfull.
    replace (length l + 1 - Z.to_nat n)%nat with 0%nat by lia.
    now replace (length l - Z.to_nat n)%nat with 0%nat by lia.
Qed.

(** C3. From a metric that holds at most [MaxSamples] samples, after any
    run of record calls with positive latencies the stored sequence has at
    most [MaxSamples] elements and is the [MaxSamples] most recently
    recorded samples, in recording order. *)
Theorem recordAll_retains_most_recent (m : Metric) (calls : list (Z * Z)) :
  Z.of_nat (length (Samples m)) <= MaxSamples (Config m) ->
  Forall (fun c => 0 < fst c) calls ->
  Z.of_nat (length (Samples (recordAll m calls))) <= MaxSamples (Config m) /\
  Samples (recordAll m calls)
  = lastN (MaxSamples (Config m)) (Samples m ++ map sampleOf calls).
Proof.
  intros Hinv Hpos.
  assert (Hn : 0 <= MaxSamples (Config m)) by lia.
  induction calls as [|c calls IH] using rev_ind.
  - cbn [recordAll fold_left map]. rewrite app_nil_r.
    split; [exact Hinv | symmetry; now apply lastN_all].
  - apply Forall_app in Hpos as [Hcalls Hc].
    apply Forall_inv in Hc.
    destruct (IH Hcalls) as [IHlen IHeq].
    rewrite recordAll_snoc.
    rewrite (RecordLatency_accepts _ _ _ Hc). cbn [fst Samples].
    rewrite recordAll_Config, IHeq, map_app, app_assoc. cbn [map].
    replace (sampleOf (fst c, snd c)) with (sampleOf c) by now destruct c.
    cbv zeta. rewrite (lastN_snoc_evict _ _ _ Hn).
    split; [| reflexivity].
    rewrite length_lastN by exact Hn. lia.
Qed.

Lemma recordAll_retains_most_recent_witness :
  let m := {| Config := {| ID := "checkout"; Window := Minute;
                           Percentiles := []; MaxSamples := 2;
                           CreatedAt := 0 |};
              Samples := [sampleOf (5, 1)] |} in
  let calls := [(10, 2); (20, 3); (30, 4)] in
  (Z.of_nat (length (Samples m)) <= MaxSamples (Config m) /\
   Forall (fun c => 0 < fst c) calls) /\
  Z.of_nat (length (Samples (recordAll m calls))) <= MaxSamples (Config m) /\
  Samples (recordAll m calls)
  = lastN (MaxSamples (Config m)) (Samples m ++ map sampleOf calls).
Proof.
  intros m calls.
  assert (H1 : Z.of_nat (length (Samples m)) <= MaxSamples (Config m))
    by (simpl; lia).
  assert (H2 : Forall (fun c => 0 < fst c) calls)
    by (repeat constructor).
  split; [now split |].
  exact (recordAll_retains_most_recent m calls H1 H2).
Defined.

(** ** Metric: the snapshot *)

Section Loops.
Context {A B : Type}.

(** A loop that appends the selected elements is a filter. *)
Lemma fold_left_select (keep : A -> bool) (l acc : list A) :
  fold_left (fun active a => if keep a then active ++ [a] else active) l acc
  = acc ++ List.filter keep l.
Proof.
  revert acc. induction l as [|a l IH]; intros acc; cbn [fold_left List.filter].
  - now rewrite app_nil_r.
  - rewrite IH. destruct (keep a); [| reflexivity].
    now rewrite <- app_assoc.
Qed.

(** A loop that appends the image of each element is a map. *)
Lemma fold_left_collect (f : A -> B) (l : list A) (acc : list B) :
  fold_left (fun ls a => ls ++ [f a]) l acc = acc ++ map f l.
Proof.
  revert acc. induction l as [|a l IH]; intros acc; cbn [fold_left map].
  - now rewrite app_nil_r.
  - rewrite IH. now rewrite <- app_assoc.
Qed.
End Loops.

Lemma wrap64_id (z : Z) : is_int64 z -> wrap64 z = z.
Proof.
  unfold is_int64, int64_min, int64_max, wrap64. intros Hz.
  rewrite Z.mod_small; lia.
Qed.

Lemma wrap64_range (z : Z) : is_int64 (wrap64 z).
Proof.
  unfold is_int64, int64_min, int64_max, wrap64.
  pose proof (Z.mod_pos_bound (z + 2 ^ 63) (2 ^ 64) ltac:(lia)). lia.
Qed.

Lemma cutoffOf_exact (now : Z) (m : Metric) :
  int64_min < Window (Config m) <= int64_max ->
  cutoffOf now m = now - Window (Config m).
Proof.
  intros Hw. unfold cutoffOf, Add. rewrite wrap64_id; [lia |].
  unfold is_int64, int64_min, int64_max in *. lia.
Qed.

Lemma activeSamples_filter (now : Z) (m : Metric) :
  activeSamples now m
  = List.filter (fun s => After (RecordedAt s) (cutoffOf now m)) (Samples m).
Proof. unfold activeSamples. cbv zeta. now rewrite fold_left_select. Qed.

Lemma insertSorted_length (x : Z) (l : list Z) :
  length (insertSorted x l) = S (length l).
Proof.
  induction l as [|y l IH]; [reflexivity |].
  cbn [insertSorted]. destruct (x <=? y); cbn [length]; congruence.
Qed.

Lemma sortSlice_length (l : list Z) : length (sortSlice l) = length l.
Proof.
  induction l as [|x l IH]; [reflexivity |].
  cbn [sortSlice fold_right]. fold (sortSlice l).
  now rewrite insertSorted_length, IH.
Qed.

(** The snapshot is always produced; its count is the number of active
    samples, which alone decides whether the percentiles are present. *)
Lemma CalculateLatency_Done (now : Z) (m : Metric) :
  exists p50 p95 p99,
    CalculateLatency now m
    = Done {| MetricID := ID (Config m);
              SnapshotWindow := Window (Config m);
              Count := Z.of_nat (length (activeSamples now m));
              P50 := p50; P95 := p95; P99 := p99 |} /\
    (activeSamples now m = [] -> p50 = None /\ p95 = None /\ p99 = None) /\
    (activeSamples now m <> [] ->
     is_Some p50 /\ is_Some p95 /\ is_Some p99).
Proof.
  unfold CalculateLatency. cbv zeta.
  destruct (activeSamples now m) as [|s active] eqn:Hact.
  - exists None, None, None. cbn. repeat split; congruence.
  - replace (Z.of_nat (length (s :: active)) >? 0) with true
      by (symmetry; apply Z.gtb_lt; cbn [length]; lia).
    set (latencies := sortSlice _).
    assert (Hne : latencies <> []).
    { intros Hnil. apply (f_equal (@length Z)) in Hnil.
      unfold latencies in Hnil.
      rewrite sortSlice_length, fold_left_collect in Hnil.
      discriminate Hnil. }
    destruct (computePercentile_index latencies 50 Hne) as (v50 & H50 & _).
    destruct (computePercentile_index latencies 95 Hne) as (v95 & H95 & _).
    destruct (computePercentile_index latencies 99 Hne) as (v99 & H99 & _).
    exists (Some v50), (Some v95), (Some v99).
    rewrite H50, H95, H99. cbn.
    repeat split; try congruence; eauto.
Qed.

(** C4. The snapshot taken at [now] uses the cutoff [now - window]; the
    active samples are the stored samples recorded strictly after the
    cutoff, in stored order, and the count is their number. A sample
    recorded at the cutoff instant is not active. The window is a 64-bit
    duration other than the least one, whose negation wraps; the store
    builds metrics with a positive window only. *)
Theorem CalculateLatency_window (now : Z) (m : Metric) :
  int64_min < Window (Config m) <= int64_max ->
  cutoffOf now m = now - Window (Config m) /\
  activeSamples now m = List.filter (insideWindow now m) (Samples m) /\
  (exists snapshot,
     CalculateLatency now m = Done snapshot /\
     Count snapshot
     = Z.of_nat (length (List.filter (insideWindow now m) (Samples m)))) /\
  (forall s, In s (activeSamples now m) <->
             In s (Samples m) /\ now - Window (Config m) < RecordedAt s) /\
  (forall s, RecordedAt s = now - Window (Config m) ->
             ~ In s (activeSamples now m)).
Proof.
  intros Hw.
  pose proof (cutoffOf_exact now m Hw) as Hcut.
  assert (Hact : activeSamples now m
                 = List.filter (insideWindow now m) (Samples m)).
  { rewrite activeSamples_filter. apply filter_ext. intros s.
    unfold After, insideWindow. now rewrite Hcut. }
  assert (Hin : forall s, In s (activeSamples now m) <->
                In s (Samples m) /\ now - Window (Config m) < RecordedAt s).
  { intros s. rewrite Hact, filter_In. unfold insideWindow.
    now rewrite Z.ltb_lt. }
  repeat split; try assumption; try (now apply Hin).
  - destruct (CalculateLatency_Done now m) as (p50 & p95 & p99 & Hdone & _).
    eexists. split; [exact Hdone |]. cbn [Count]. now rewrite Hact.
  - intros s Hs Habs. apply Hin in Habs. lia.
Qed.

Lemma CalculateLatency_window_witness :
  let m := {| Config := defaultMetricConfig 0 "checkout";
              Samples := [sampleOf (10, 40); sampleOf (20, 41);
                          sampleOf (30, 42)] |} in
  let now := 41 + Minute in
  int64_min < Window (Config m) <= int64_max /\
  cutoffOf now m = 41 /\
  activeSamples now m = [sampleOf (30, 42)] /\
  ~ In (sampleOf (20, 41)) (activeSamples now m).
Proof.
  intros m now.
  assert (Hw : int64_min < Window (Config m) <= int64_max)
    by (vm_compute; split; [reflexivity | discriminate]).
  destruct (CalculateLatency_window now m Hw) as (Hcut & Hact & _ & _ & Hex).
  split; [exact Hw |]. split; [exact Hcut |]. split; [exact Hact |].
  apply Hex. reflexivity.
Defined.

Lemma activeSamples_none (now : Z) (m : Metric) :
  Forall (fun s => RecordedAt s <= cutoffOf now m) (Samples m) ->
  activeSamples now m = [].
Proof.
  intros Hold. rewrite activeSamples_filter.
  induction Hold as [|s l Hs _ IH]; [reflexivity |].
  cbn [List.filter]. unfold After at 1.
  now replace (cutoffOf now m <? RecordedAt s) with false
    by (symmetry; apply Z.ltb_ge; exact Hs).
Qed.

Lemma CalculateLatency_fresh (now : Z) (config : MetricConfig) :
  CalculateLatency now {| Config := config; Samples := [] |}
  = Done {| MetricID := ID config; SnapshotWindow := Window config;
            Count := 0; P50 := None; P95 := None; P99 := None |}.
Proof. reflexivity. Qed.

(** C6. When no stored sample is recorded after the cutoff, in particular
    when nothing is stored, the snapshot is produced with count 0 and its
    three percentiles absent. *)
Theorem CalculateLatency_no_active (now : Z) (m : Metric) :
  Forall (fun s => RecordedAt s <= cutoffOf now m) (Samples m) ->
  activeSamples now m = [] /\
  CalculateLatency now m
  = Done {| MetricID := ID (Config m);
            SnapshotWindow := Window (Config m);
            Count := 0;
            P50 := None; P95 := None; P99 := None |}.
Proof.
  intros Hold.
  pose proof (activeSamples_none now m Hold) as Hact.
  split; [exact Hact |].
  unfold CalculateLatency. cbv zeta. now rewrite Hact.
Qed.

Lemma CalculateLatency_no_active_witness :
  let m := {| Config := defaultMetricConfig 0 "checkout";
              Samples := [sampleOf (10, 40); sampleOf (20, 41)] |} in
  let now := 41 + Minute in
  Forall (fun s => RecordedAt s <= cutoffOf now m) (Samples m) /\
  activeSamples now m = [] /\
  CalculateLatency now m
  = Done {| MetricID := "checkout"; SnapshotWindow := Minute; Count := 0;
            P50 := None; P95 := None; P99 := None |}.
Proof.
  intros m now.
  assert (Hold : Forall (fun s => RecordedAt s <= cutoffOf now m) (Samples m))
    by (repeat constructor; vm_compute; discriminate).
  split; [exact Hold |].
  exact (CalculateLatency_no_active now m Hold).
Defined.

(** ** Metric store *)

Lemma getOrCreateMetric_found (now : Z) (ms : MetricStore) (id : string)
    (metric : Metric) :
  getMetric ms id = Some metric ->
  getOrCreateMetric now ms id = Done (ms, metric).
Proof. unfold getMetric, getOrCreateMetric. now intros ->. Qed.

(** On the branch where the identifier has no entry the store is given a
    new map, whose only entry is the new metric. *)
Lemma getOrCreateMetric_not_found (now : Z) (ms : MetricStore) (id : string) :
  getMetric ms id = None ->
  getOrCreateMetric now ms id
  = Done ({| Metrics :=
               Some {[ id := {| Config := defaultMetricConfig now id;
                                Samples := [] |} ]} |},
          {| Config := defaultMetricConfig now id; Samples := [] |}).
Proof.
  unfold getMetric, getOrCreateMetric. intros ->. cbn.
  now rewrite insert_empty.
Qed.

(** C1. In a store where "checkout" is registered with one sample,
    [getOrCreateMetric] for the unregistered "login" returns the new
    metric and registers it, and "checkout" is no longer registered. *)
Theorem getOrCreateMetric_loses_registered :
  getMetric checkoutStore "checkout" = Some checkoutMetric /\
  getMetric checkoutStore "login" = None /\
  exists ms' metric,
    getOrCreateMetric 2 checkoutStore "login" = Done (ms', metric) /\
    getMetric ms' "login" = Some metric /\
    getMetric ms' "checkout" = None.
Proof.
  split; [reflexivity |]. split; [reflexivity |].
  eexists _, _. split; [reflexivity |]. split; reflexivity.
Qed.

(** C10. On the zero-value store, whose map is nil, [getOrCreateMetric]
    does not panic: it returns the metric with the default configuration
    and no samples, registered in a new map, and that metric accepts a
    positive latency. *)
Theorem getOrCreateMetric_nil_map (now : Z) (id : string) :
  let metric := {| Config := defaultMetricConfig now id; Samples := [] |} in
  exists ms',
    getOrCreateMetric now {| Metrics := None |} id = Done (ms', metric) /\
    Metrics ms' = Some {[ id := metric ]} /\
    getMetric ms' id = Some metric /\
    forall now' latency,
      0 < latency ->
      RecordLatency now' metric latency
      = ({| Config := Config metric;
            Samples := [sampleOf (latency, now')] |}, true).
Proof.
  intros metric. eexists. split.
  - now apply getOrCreateMetric_not_found.
  - cbn [Metrics getMetric mapLookup]. split; [reflexivity |].
    split; [apply lookup_singleton_eq |].
    intros now' latency Hpos.
    rewrite (RecordLatency_accepts _ _ _ Hpos). reflexivity.
Qed.

Lemma getOrCreateMetric_nil_map_witness :
  exists ms' metric,
    getOrCreateMetric 0 {| Metrics := None |} "checkout" = Done (ms', metric) /\
    (0 < 10000000 -> fst (RecordLatency 1 metric 10000000)
                     = {| Config := Config metric;
                          Samples := [sampleOf (10000000, 1)] |}).
Proof.
  destruct (getOrCreateMetric_nil_map 0 "checkout")
    as (ms' & Hcall & _ & _ & Hrec).
  eexists _, _. split; [exact Hcall |].
  intros Hpos. now rewrite (Hrec 1 10000000 Hpos).
Defined.

(** C8, as stated, fails on the zero-value store: for the valid default
    configuration [CreateMetric] panics on the assignment to the nil map,
    and nothing is inserted. *)
Lemma CreateMetric_nil_map_panics :
  0 < Window (defaultMetricConfig 0 "checkout") /\
  0 < MaxSamples (defaultMetricConfig 0 "checkout") /\
  CreateMetric zeroStore (defaultMetricConfig 0 "checkout")
  = Panic "assignment to entry in nil map" /\
  ~ exists ms' r,
      CreateMetric zeroStore (defaultMetricConfig 0 "checkout") = Done (ms', r).
Proof.
  repeat split. intros (ms' & r & H). discriminate H.
Qed.

(** C8, amended. A configuration whose window or maximum sample count is
    zero or negative is rejected with an error and the store is the one
    before the call, whatever its state. For a valid configuration and a
    store whose map is initialised, [CreateMetric] returns a metric with
    that configuration and no samples and registers it under the
    configuration's identifier, in the place of any metric registered
    there; the other entries are kept. *)
Theorem CreateMetric_validates (ms : MetricStore) (config : MetricConfig) :
  (Window config <= 0 \/ MaxSamples config <= 0 ->
   exists err, CreateMetric ms config = Done (ms, (None, Some err))) /\
  (0 < Window config -> 0 < MaxSamples config ->
   forall g, Metrics ms = Some g ->
   let metric := {| Config := config; Samples := [] |} in
   exists ms',
     CreateMetric ms config = Done (ms', (Some metric, None)) /\
     Metrics ms' = Some (<[ID config := metric]> g) /\
     getMetric ms' (ID config) = Some metric /\
     forall id, id <> ID config -> getMetric ms' id = getMetric ms id).
Proof.
  split.
  - intros Hbad. unfold CreateMetric.
    destruct (Window config <=? 0) eqn:Hw; [eauto |].
    destruct (MaxSamples config <=? 0) eqn:Hs; [eauto |]. lia.
  - intros Hw Hs g Hg metric. unfold CreateMetric.
    replace (Window config <=? 0) with false by (symmetry; lia).
    replace (MaxSamples config <=? 0) with false by (symmetry; lia).
    rewrite Hg. cbn [mapStore bind].
    eexists. split; [reflexivity |].
    unfold getMetric. rewrite Hg. cbn [Metrics mapLookup].
    split; [reflexivity |]. split; [apply lookup_insert_eq |].
    intros id Hid. now apply lookup_insert_ne.
Qed.

Lemma CreateMetric_validates_witness :
  let bad := {| ID := "checkout"; Window := 0; Percentiles := [];
                MaxSamples := 100; CreatedAt := 0 |} in
  let good := defaultMetricConfig 0 "checkout" in
  (Window bad <= 0 \/ MaxSamples bad <= 0) /\
  (exists err, CreateMetric checkoutStore bad
               = Done (checkoutStore, (None, Some err))) /\
  (0 < Window good /\ 0 < MaxSamples good /\
   Metrics checkoutStore = Some {[ "checkout"%string := checkoutMetric ]}) /\
  exists ms',
    CreateMetric checkoutStore good
    = Done (ms', (Some {| Config := good; Samples := [] |}, None)) /\
    getMetric ms' "checkout" = Some {| Config := good; Samples := [] |}.
Proof.
  intros bad good.
  assert (Hbad : Window bad <= 0 \/ MaxSamples bad <= 0) by (left; simpl; lia).
  assert (Hw : 0 < Window good) by reflexivity.
  assert (Hs : 0 < MaxSamples good) by reflexivity.
  split; [exact Hbad |].
  split; [exact (proj1 (CreateMetric_validates checkoutStore bad) Hbad) |].
  split; [repeat split |].
  destruct (proj2 (CreateMetric_validates checkoutStore good) Hw Hs _ eq_refl)
    as (ms' & Hcall & _ & Hget & _).
  exists ms'. now split.
Defined.

(** ** binary64 rounding is monotone *)

Lemma dg_spec (v : Z) : 0 < v -> 2 ^ (dg v - 1) <= v < 2 ^ dg v.
Proof.
  intros Hv. unfold dg. replace (Z.log2 v + 1 - 1) with (Z.log2 v) by lia.
  replace (Z.log2 v + 1) with (Z.succ (Z.log2 v)) by lia.
  now apply Z.log2_spec.
Qed.

Lemma dg_mono (v1 v2 : Z) : v1 <= v2 -> dg v1 <= dg v2.
Proof. intros H. unfold dg. pose proof (Z.log2_le_mono v1 v2 H). lia. Qed.

Lemma dg_pos (v : Z) : 0 < dg v.
Proof. unfold dg. pose proof (Z.log2_nonneg v). lia. Qed.

Lemma dg_ge (v k : Z) : 0 <= k -> 2 ^ k <= v -> k < dg v.
Proof.
  intros Hk Hv. unfold dg.
  pose proof (Z.log2_le_mono _ _ Hv) as H. rewrite Z.log2_pow2 in H by lia.
  lia.
Qed.

Lemma dg_le (v k : Z) : 0 < v -> 0 <= k -> v < 2 ^ k -> dg v <= k.
Proof.
  intros Hv Hk Hlt. unfold dg.
  assert (Z.log2 v < k); [| lia]. now apply Z.log2_lt_pow2.
Qed.

Lemma dg_mul_pow2 (m j : Z) : 0 < m -> 0 <= j -> dg (m * 2 ^ j) = dg m + j.
Proof. intros Hm Hj. unfold dg. rewrite Z.log2_mul_pow2 by lia. lia. Qed.

(** The digits of a value between two consecutive multiples of a power of
    two are those of the lower multiple. *)
Lemma dg_between (q k x : Z) :
  0 < q -> 0 <= k -> q * 2 ^ k <= x < (q + 1) * 2 ^ k -> dg x = dg q + k.
Proof.
  intros Hq Hk [Hlo Hhi]. unfold dg.
  pose proof (Z.log2_spec q Hq) as [Hq1 Hq2].
  assert (Hp : 0 < 2 ^ k) by (apply Z.pow_pos_nonneg; lia).
  pose proof (Z.log2_nonneg q) as Hnn.
  rewrite (Z.log2_unique x (Z.log2 q + k)); [lia | lia |].
  replace (Z.succ (Z.log2 q + k)) with (Z.succ (Z.log2 q) + k) by lia.
  rewrite !Z.pow_add_r by lia. nia.
Qed.

Lemma rne_bounds (V U : Z) : 0 < U -> V / U <= rne V U <= V / U + 1.
Proof.
  intros HU. unfold rne.
  destruct (2 * (V mod U) ?= U); try destruct (Z.even (V / U)); lia.
Qed.

Lemma rne_ge_grid (V U G : Z) : 0 < U -> G * U <= V -> G <= rne V U.
Proof.
  intros HU HG. pose proof (rne_bounds V U HU).
  assert (G <= V / U) by (apply Z.div_le_lower_bound; lia). lia.
Qed.

Lemma rne_exact (U G : Z) : 0 < U -> rne (G * U) U = G.
Proof.
  intros HU. unfold rne. rewrite Z.mod_mul, Z.div_mul by lia.
  change (2 * 0) with 0.
  destruct (Z.compare_spec 0 U); [lia | reflexivity | lia].
Qed.

Lemma rne_le_grid (V U G : Z) : 0 < U -> V <= G * U -> rne V U <= G.
Proof.
  intros HU HG. pose proof (rne_bounds V U HU).
  assert (Hq : V / U <= G) by (apply Z.div_le_upper_bound; lia).
  destruct (Z.eq_dec (V / U) G) as [Heq | Hne]; [| lia].
  assert (V = G * U).
  { pose proof (Z.div_mod V U ltac:(lia)).
    pose proof (Z.mod_pos_bound V U HU). nia. }
  subst V. rewrite rne_exact by lia. lia.
Qed.

Lemma rne_mono (V1 V2 U : Z) : 0 < U -> V1 <= V2 -> rne V1 U <= rne V2 U.
Proof.
  intros HU HV.
  pose proof (rne_bounds V1 U HU). pose proof (rne_bounds V2 U HU).
  pose proof (Z.div_le_mono V1 V2 U HU HV) as Hq.
  destruct (Z.eq_dec (V1 / U) (V2 / U)) as [Heq | Hne]; [| lia].
  assert (Hr : V1 mod U <= V2 mod U).
  { pose proof (Z.div_mod V1 U ltac:(lia)).
    pose proof (Z.div_mod V2 U ltac:(lia)). nia. }
  unfold rne. rewrite Heq.
  destruct (Z.compare_spec (2 * (V1 mod U)) U);
    destruct (Z.compare_spec (2 * (V2 mod U)) U);
    destruct (Z.even (V2 / U)); lia.
Qed.

Lemma pow2_split (a c : Z) : 0 <= c <= a -> 2 ^ a = 2 ^ (a - c) * 2 ^ c.
Proof. intros H. rewrite <- Z.pow_add_r by lia. f_equal. lia. Qed.

Lemma pow2_succ (k : Z) : 0 <= k -> 2 ^ (k + 1) = 2 * 2 ^ k.
Proof. intros Hk. rewrite Z.pow_add_r by lia. lia. Qed.

Section Units.
Variable D : Z.
Hypothesis HD : 0 < D.

Lemma quotient_ge (V : Z) : 2 ^ 53 * D <= V -> 2 ^ 53 <= V / D.
Proof. intros HV. apply Z.div_le_lower_bound; lia. Qed.

Lemma quotient_lt_mul (V B : Z) : V / D < B -> V < B * D.
Proof.
  intros HB. pose proof (Z.mul_succ_div_gt V D HD) as Hgt.
  apply (Z.lt_le_trans _ _ _ Hgt). rewrite (Z.mul_comm B).
  apply Z.mul_le_mono_nonneg_l; lia.
Qed.

Lemma mul_le_quotient (V B : Z) : B <= V / D -> B * D <= V.
Proof.
  intros HB. pose proof (Z.mul_div_le V D HD) as Hle.
  apply (Z.le_trans _ (D * (V / D))); [| exact Hle].
  rewrite (Z.mul_comm B). apply Z.mul_le_mono_nonneg_l; lia.
Qed.

Lemma unit_pos (U : Z) : 0 < U -> 0 < U * D.
Proof. intros HU. now apply Z.mul_pos_pos. Qed.

(** For values of at least 54 binary digits the unit of the last place is
    a positive power of two. *)
Lemma ulp_shape (b V : Z) :
  2 ^ 53 * D <= V ->
  0 < fexp64 (dg (V / D) + b) - b /\
  dg (V / D) - 53 <= fexp64 (dg (V / D) + b) - b.
Proof.
  intros HV. pose proof (quotient_ge V HV) as HQ.
  pose proof (dg_ge (V / D) 53 ltac:(lia) HQ). unfold fexp64. lia.
Qed.

Lemma ulp_pos (b V : Z) : 2 ^ 53 * D <= V -> 0 < ulp D b V.
Proof.
  intros HV. unfold ulp. apply Z.pow_pos_nonneg; [lia |].
  pose proof (ulp_shape b V HV). lia.
Qed.

Lemma rounded_mono (b V1 V2 : Z) :
  2 ^ 53 * D <= V1 -> V1 <= V2 -> rounded D b V1 <= rounded D b V2.
Proof.
  intros H1 H12.
  assert (H2 : 2 ^ 53 * D <= V2) by lia.
  pose proof (ulp_shape b V1 H1) as [Hk1 Hd1].
  pose proof (ulp_shape b V2 H2) as [Hk2 Hd2].
  pose proof (quotient_ge V1 H1) as HQ1. pose proof (quotient_ge V2 H2) as HQ2.
  pose proof (Z.div_le_mono V1 V2 D HD H12) as HQ.
  pose proof (dg_mono _ _ HQ) as Hd.
  pose proof (dg_spec (V1 / D) ltac:(lia)) as [_ Hup1].
  pose proof (dg_spec (V2 / D) ltac:(lia)) as [Hlo2 _].
  pose proof (ulp_pos b V1 H1) as HU1. pose proof (ulp_pos b V2 H2) as HU2.
  unfold rounded.
  destruct (Z.eq_dec (fexp64 (dg (V1 / D) + b)) (fexp64 (dg (V2 / D) + b)))
    as [He | He].
  - unfold ulp in *. rewrite He in *.
    apply Z.mul_le_mono_nonneg_r; [lia |].
    apply rne_mono; [now apply unit_pos | exact H12].
  - assert (Hlt : fexp64 (dg (V1 / D) + b) < fexp64 (dg (V2 / D) + b))
      by (unfold fexp64 in *; lia).
    assert (He2 : fexp64 (dg (V2 / D) + b) - b = dg (V2 / D) - 53)
      by (unfold fexp64 in *; lia).
    assert (Hdd : dg (V1 / D) < dg (V2 / D)) by (unfold fexp64 in *; lia).
    set (P := 2 ^ (dg (V2 / D) - 1)) in *.
    assert (HV1P : V1 <= P * D).
    { pose proof (Z.pow_le_mono_r 2 (dg (V1 / D)) (dg (V2 / D) - 1)
                    ltac:(lia) ltac:(lia)) as Hpow.
      fold P in Hpow. apply Z.lt_le_incl, quotient_lt_mul. lia. }
    assert (HPV2 : P * D <= V2) by (apply mul_le_quotient; exact Hlo2).
    transitivity P.
    + unfold ulp in *. set (k1 := fexp64 (dg (V1 / D) + b) - b) in *.
      assert (HP : P = 2 ^ (dg (V2 / D) - 1 - k1) * 2 ^ k1)
        by (apply pow2_split; lia).
      rewrite HP. apply Z.mul_le_mono_nonneg_r; [lia |].
      apply rne_le_grid; [now apply unit_pos |].
      rewrite Z.mul_assoc, <- HP. exact HV1P.
    + unfold ulp in *. rewrite He2 in *.
      assert (HP : P = 2 ^ 52 * 2 ^ (dg (V2 / D) - 53)).
      { unfold P. rewrite <- Z.pow_add_r by lia. f_equal. lia. }
      rewrite HP. apply Z.mul_le_mono_nonneg_r; [lia |].
      apply rne_ge_grid; [now apply unit_pos |].
      rewrite Z.mul_assoc, <- HP. exact HPV2.
Qed.

Lemma rounded_exact (b V G : Z) :
  2 ^ 53 * D <= V -> V = G * (ulp D b V * D) -> rounded D b V = G * ulp D b V.
Proof.
  intros HV HG. unfold rounded. pose proof (ulp_pos b V HV).
  rewrite HG at 1. rewrite rne_exact by now apply unit_pos. reflexivity.
Qed.

End Units.

(** *** The shifts of [binary_round_aux] *)

Lemma fexp_fexp64 (e : Z) : fexp 53 1024 e = fexp64 e.
Proof. reflexivity. Qed.

Lemma digits2_pos_size (p : positive) : digits2_pos p = Pos.size p.
Proof. induction p; simpl; congruence. Qed.

Lemma Zdigits2_dg (p : positive) : Zdigits2 (Z.pos p) = dg (Z.pos p).
Proof.
  unfold dg. cbn [Zdigits2]. rewrite digits2_pos_size.
  destruct p; cbn [Z.log2 Pos.size]; lia.
Qed.

Lemma dg_53 (m : Z) : 0 < m -> m < 2 ^ 53 -> dg m <= 53.
Proof. intros Hm Hlt. apply dg_le; lia. Qed.

Lemma located_bounds (H V : Z) (mrs : shr_record) :
  0 < H -> located H V mrs ->
  shr_m mrs * (2 * H) <= V < (shr_m mrs + 1) * (2 * H).
Proof.
  intros HH [Hm Hloc]. destruct (shr_r mrs), (shr_s mrs); lia.
Qed.

(** One shift doubles the unit and keeps the location. *)
Lemma located_shr_1 (H V : Z) (mrs : shr_record) :
  0 < H -> located H V mrs -> located (2 * H) V (shr_1 mrs).
Proof.
  intros HH. unfold located.
  destruct mrs as [m r s]. cbn [shr_m shr_r shr_s].
  intros [Hm Hloc].
  destruct m as [|p|p]; [| | lia].
  - destruct r, s; cbn [shr_1 shr_m shr_r shr_s orb]; lia.
  - destruct p as [p|p|].
    + rewrite Pos2Z.inj_xI in Hloc.
      destruct r, s; cbn [shr_1 shr_m shr_r shr_s orb]; lia.
    + rewrite Pos2Z.inj_xO in Hloc.
      destruct r, s; cbn [shr_1 shr_m shr_r shr_s orb]; lia.
    + destruct r, s; cbn [shr_1 shr_m shr_r shr_s orb]; lia.
Qed.

Lemma located_iter (V : Z) (n : positive) :
  forall (H : Z) (mrs : shr_record),
    0 < H -> located H V mrs ->
    located (2 ^ Z.pos n * H) V (SpecFloat.iter_pos shr_1 n mrs).
Proof.
  induction n as [n IH | n IH |]; intros H mrs HH Hloc;
    cbn [SpecFloat.iter_pos].
  - replace (2 ^ Z.pos n~1 * H) with (2 ^ Z.pos n * (2 ^ Z.pos n * (2 * H))).
    + assert (0 < 2 ^ Z.pos n) by (apply Z.pow_pos_nonneg; lia).
      apply IH; [nia |]. apply IH; [lia |]. now apply located_shr_1.
    + replace (Z.pos n~1) with (Z.pos n + Z.pos n + 1) by lia.
      rewrite !Z.pow_add_r by lia. change (2 ^ 1) with 2. lia.
  - replace (2 ^ Z.pos n~0 * H) with (2 ^ Z.pos n * (2 ^ Z.pos n * H)).
    + assert (0 < 2 ^ Z.pos n) by (apply Z.pow_pos_nonneg; lia).
      apply IH; [nia |]. now apply IH.
    + replace (Z.pos n~0) with (Z.pos n + Z.pos n) by lia.
      rewrite Z.pow_add_r by lia. lia.
  - change (2 ^ 1) with 2. now apply located_shr_1.
Qed.

(** Rounding the located mantissa gives the nearest multiple of the
    unit. *)
Lemma located_rne (H V : Z) (mrs : shr_record) :
  0 < H -> located H V mrs ->
  round_nearest_even (shr_m mrs) (loc_of_shr_record mrs) = rne V (2 * H).
Proof.
  intros HH. unfold located.
  destruct mrs as [m r s]. cbn [shr_m shr_r shr_s].
  intros [Hm Hloc]. unfold rne.
  assert (Hq : V / (2 * H) = m)
    by (symmetry; apply (Z.div_unique_pos V (2 * H) m (V - m * (2 * H)));
        destruct r, s; lia).
  assert (Hr : V mod (2 * H) = V - m * (2 * H))
    by (symmetry; apply (Z.mod_unique_pos V (2 * H) m (V - m * (2 * H)));
        destruct r, s; lia).
  rewrite Hq, Hr.
  destruct r, s; cbn [loc_of_shr_record round_nearest_even];
    destruct (Z.compare_spec (2 * (V - m * (2 * H))) (2 * H)); try lia;
    reflexivity.
Qed.

Lemma shr_nonpos (mrs : shr_record) (e n : Z) :
  n <= 0 -> shr mrs e n = (mrs, e).
Proof. intros Hn. destruct n; [reflexivity | lia | reflexivity]. Qed.

Lemma shr_pos_located (H V : Z) (mrs : shr_record) (e n : Z) :
  0 < n -> 0 < H -> located H V mrs ->
  exists mrs', shr mrs e n = (mrs', e + n) /\ located (2 ^ n * H) V mrs'.
Proof.
  intros Hn HH Hloc. destruct n as [|n|n]; try lia.
  eexists. split; [reflexivity |]. now apply located_iter.
Qed.

(** The second shift renormalises a mantissa that rounding carried to
    [2 ^ 53]; the value is kept. *)
Lemma round_stage2 (M' e1 : Z) :
  -1074 <= e1 -> 0 <= M' <= 2 ^ 53 ->
  (-1074 < e1 -> 2 ^ 52 <= M') ->
  exists mrs'' e'',
    shr_fexp 53 1024 M' e1 loc_Exact = (mrs'', e'') /\
    0 <= shr_m mrs'' < 2 ^ 53 /\ e1 <= e'' /\
    shr_m mrs'' * 2 ^ (e'' - e1) = M' /\
    (-1074 < e'' -> 2 ^ 52 <= shr_m mrs'').
Proof.
  intros He1 HM' Hnorm. unfold shr_fexp.
  destruct (Z.eq_dec M' (2 ^ 53)) as [Hcarry | Hsmall].
  - subst M'. change (Zdigits2 (2 ^ 53)) with 54. rewrite fexp_fexp64.
    replace (fexp64 (54 + e1) - e1) with 1 by (unfold fexp64; lia).
    eexists _, _. split; [reflexivity |].
    replace (e1 + 1 - e1) with 1 by lia.
    replace (shr_m (SpecFloat.iter_pos shr_1 1
                      (shr_record_of_loc (2 ^ 53) loc_Exact)))
      with (2 ^ 52) by (vm_compute; reflexivity).
    repeat split; lia.
  - destruct M' as [|m'|m']; [| | lia].
    + rewrite shr_nonpos
        by (cbn [Zdigits2]; rewrite fexp_fexp64; unfold fexp64; lia).
      eexists _, _. split; [reflexivity |]. cbn [shr_m shr_record_of_loc].
      repeat split; try lia.
    + assert (Hd : dg (Z.pos m') <= 53).
      { destruct (Z_lt_le_dec 53 (dg (Z.pos m'))) as [Hgt | Hle]; [| exact Hle].
        pose proof (dg_spec (Z.pos m') ltac:(lia)) as [Hlo _].
        pose proof (Z.pow_le_mono_r 2 53 (dg (Z.pos m') - 1)
                      ltac:(lia) ltac:(lia)).
        lia. }
      rewrite shr_nonpos
        by (rewrite Zdigits2_dg, fexp_fexp64; unfold fexp64; lia).
      eexists _, _. split; [reflexivity |]. cbn [shr_m shr_record_of_loc].
      rewrite Z.sub_diag.
      repeat split; try lia.
Qed.

Section Rounding.
Variables D b : Z.
Hypothesis HD : 0 < D.

(** The first shift of [binary_round_aux] brings the mantissa to the
    target exponent; rounding it gives the nearest multiple of the unit. *)
Lemma round_stage1 (V : Z) (q : positive) (e : Z) (loc : location) :
  b < e -> 2 ^ 52 <= Z.pos q ->
  located (2 ^ (e - b - 1) * D) V (shr_record_of_loc (Z.pos q) loc) ->
  exists mrs',
    shr_fexp 53 1024 (Z.pos q) e loc = (mrs', fexp64 (dg (Z.pos q) + e)) /\
    e <= fexp64 (dg (Z.pos q) + e) /\
    round_nearest_even (shr_m mrs') (loc_of_shr_record mrs')
    = rne V (2 ^ (fexp64 (dg (Z.pos q) + e) - b) * D).
Proof.
  intros Hb Hq Hloc.
  pose proof (dg_ge (Z.pos q) 52 ltac:(lia) Hq) as Hd.
  set (e1 := fexp64 (dg (Z.pos q) + e)).
  assert (He1 : e <= e1) by (unfold e1, fexp64; lia).
  assert (HH : 0 < 2 ^ (e - b - 1) * D)
    by (apply Z.mul_pos_pos; [apply Z.pow_pos_nonneg; lia | exact HD]).
  unfold shr_fexp. rewrite Zdigits2_dg, fexp_fexp64. fold e1.
  destruct (Z.eq_dec e1 e) as [Heq | Hne].
  - rewrite shr_nonpos by lia. eexists. split; [now rewrite Heq |].
    split; [lia |]. rewrite (located_rne _ _ _ HH Hloc), Heq.
    f_equal. rewrite Z.mul_assoc, <- pow2_succ by lia. do 2 f_equal. lia.
  - destruct (shr_pos_located _ V _ e (e1 - e) ltac:(lia) HH Hloc)
      as (mrs' & Hshr & Hloc').
    replace (e + (e1 - e)) with e1 in Hshr by lia.
    exists mrs'. split; [exact Hshr |]. split; [lia |].
    assert (HH' : 0 < 2 ^ (e1 - e) * (2 ^ (e - b - 1) * D))
      by (apply Z.mul_pos_pos; [apply Z.pow_pos_nonneg; lia | exact HH]).
    rewrite (located_rne _ _ _ HH' Hloc'). f_equal.
    rewrite !Z.mul_assoc, <- (pow2_succ (e1 - e)), <- Z.pow_add_r by lia.
    do 2 f_equal. lia.
Qed.

(** The result of rounding a mantissa of at least 53 binary digits whose
    record locates the exact value [V / D]. *)
Lemma round_char (V : Z) (q : positive) (e : Z) (loc : location) :
  b < e -> 2 ^ 52 <= Z.pos q ->
  located (2 ^ (e - b - 1) * D) V (shr_record_of_loc (Z.pos q) loc) ->
  match binary_round_aux 53 1024 false (Z.pos q) e loc with
  | S754_zero s => s = false /\ rounded D b V = 0 /\ b < -1074
  | S754_finite s m e' =>
      s = false /\ b < e' /\ e' <= 971 /\ Z.pos m < 2 ^ 53 /\
      (-1074 < e' -> 2 ^ 52 <= Z.pos m) /\
      Z.pos m * 2 ^ (e' - b) = rounded D b V
  | S754_infinity s =>
      s = false /\
      exists m e', b < e' /\ 971 < e' /\ 2 ^ 52 <= m /\
                   rounded D b V = m * 2 ^ (e' - b)
  | S754_nan => False
  end.
Proof.
  intros Hb Hq Hloc.
  assert (HH : 0 < 2 ^ (e - b - 1) * D)
    by (apply Z.mul_pos_pos; [apply Z.pow_pos_nonneg; lia | exact HD]).
  pose proof (located_bounds _ _ _ HH Hloc) as Hbounds.
  cbn [shr_m] in Hbounds.
  replace (shr_m (shr_record_of_loc (Z.pos q) loc)) with (Z.pos q) in Hbounds
    by (destruct loc as [|[| |]]; reflexivity).
  replace (2 * (2 ^ (e - b - 1) * D)) with (2 ^ (e - b) * D) in Hbounds
    by (rewrite Z.mul_assoc, <- pow2_succ by lia; do 2 f_equal; lia).
  assert (HU : 2 <= 2 ^ (e - b)).
  { pose proof (Z.pow_le_mono_r 2 1 (e - b) ltac:(lia) ltac:(lia)) as Hp.
    exact Hp. }
  assert (HV : 2 ^ 53 * D <= V) by nia.
  assert (HQ : Z.pos q * 2 ^ (e - b) <= V / D < (Z.pos q + 1) * 2 ^ (e - b)).
  { split.
    - apply Z.div_le_lower_bound; [exact HD | nia].
    - apply Z.div_lt_upper_bound; [exact HD | nia]. }
  assert (HdV : dg (V / D) = dg (Z.pos q) + (e - b))
    by (apply dg_between; lia).
  destruct (round_stage1 V q e loc Hb Hq Hloc) as (mrs' & H1 & HE1 & Hrne).
  set (e1 := fexp64 (dg (Z.pos q) + e)) in *.
  assert (Hulp : ulp D b V = 2 ^ (e1 - b)).
  { unfold ulp, e1. rewrite HdV.
    now replace (dg (Z.pos q) + (e - b) + b) with (dg (Z.pos q) + e) by lia. }
  pose proof (ulp_shape D HD b V HV) as [Hk Hkd].
  pose proof (ulp_pos D HD b V HV) as HUpos.
  replace (fexp64 (dg (V / D) + b)) with e1 in *
    by (unfold e1; rewrite HdV; f_equal; lia).
  rewrite Hulp in HUpos.
  set (M' := round_nearest_even (shr_m mrs') (loc_of_shr_record mrs')) in *.
  assert (HRV : rounded D b V = M' * 2 ^ (e1 - b))
    by (unfold rounded; now rewrite Hulp, Hrne).
  pose proof (quotient_ge D HD V HV) as HQ53.
  pose proof (dg_spec (V / D) ltac:(lia)) as [HVlo HVup].
  assert (HW : 0 < 2 ^ (e1 - b) * D) by (now apply unit_pos).
  assert (HM' : 0 <= M' <= 2 ^ 53).
  { rewrite Hrne. pose proof (rne_bounds V _ HW).
    pose proof (Z.div_pos V _ ltac:(lia) HW).
    assert (V / (2 ^ (e1 - b) * D) < 2 ^ 53); [| lia].
    apply Z.div_lt_upper_bound; [exact HW |].
    pose proof (Z.pow_le_mono_r 2 (dg (V / D)) (e1 - b + 53)
                  ltac:(lia) ltac:(lia)) as Hp.
    rewrite Z.pow_add_r in Hp by lia.
    rewrite Z.mul_shuffle0. apply (quotient_lt_mul D HD). lia. }
  assert (Hnorm : -1074 < e1 -> 2 ^ 52 <= M').
  { intros Hn. rewrite Hrne. apply rne_ge_grid; [exact HW |].
    assert (Hp : 2 ^ 52 * 2 ^ (e1 - b) = 2 ^ (dg (V / D) - 1)).
    { rewrite <- Z.pow_add_r by lia. f_equal.
      rewrite HdV. unfold e1, fexp64 in *. lia. }
    rewrite Z.mul_assoc, Hp. apply (mul_le_quotient D HD). exact HVlo. }
  assert (He1 : -1074 <= e1) by (unfold e1, fexp64; lia).
  destruct (round_stage2 M' e1 He1 HM' Hnorm)
    as (mrs'' & e'' & H2 & Hm'' & He'' & Hval & Hn'').
  unfold binary_round_aux. rewrite H1. fold M'. rewrite H2.
  assert (Hsplit : 2 ^ (e'' - b) = 2 ^ (e'' - e1) * 2 ^ (e1 - b))
    by (rewrite <- Z.pow_add_r by lia; f_equal; lia).
  destruct (shr_m mrs'') as [|m|m] eqn:Hm; [| | lia].
  - split; [reflexivity |]. rewrite HRV. split; [lia |].
    destruct (Z_lt_le_dec b (-1074)) as [Hlow | Hhigh]; [exact Hlow |].
    specialize (Hnorm ltac:(lia)). lia.
  - change (1024 - 53) with 971.
    destruct (Z.leb_spec e'' 971) as [Hfin | Hinf].
    + rewrite HRV, Hsplit, <- Hval. repeat split; lia.
    + split; [reflexivity |].
      exists (Z.pos m), e''. specialize (Hn'' ltac:(lia)).
      rewrite HRV, <- Hval, <- Z.mul_assoc, <- Hsplit.
      repeat split; lia.
Qed.

End Rounding.

(** The rounding of an exact product. *)
Lemma roundExact_char (b : Z) (M : positive) (E : Z) :
  b < E -> 2 ^ 52 <= Z.pos M ->
  match roundExact M E with
  | S754_zero s =>
      s = false /\ rounded 1 b (Z.pos M * 2 ^ (E - b)) = 0 /\ b < -1074
  | S754_finite s m e =>
      s = false /\ b < e /\ e <= 971 /\ Z.pos m < 2 ^ 53 /\
      (-1074 < e -> 2 ^ 52 <= Z.pos m) /\
      Z.pos m * 2 ^ (e - b) = rounded 1 b (Z.pos M * 2 ^ (E - b))
  | S754_infinity s =>
      s = false /\
      exists m e, b < e /\ 971 < e /\ 2 ^ 52 <= m /\
                  rounded 1 b (Z.pos M * 2 ^ (E - b)) = m * 2 ^ (e - b)
  | S754_nan => False
  end.
Proof.
  intros Hb HM. apply (round_char 1 b ltac:(lia)); try assumption.
  split; cbn [shr_record_of_loc shr_m shr_r shr_s]; [lia |].
  rewrite Z.mul_1_r, <- pow2_succ by lia.
  now replace (E - b - 1 + 1) with (E - b) by lia.
Qed.

(** For a product the denominator is 1. *)
Lemma ulp_1 (b V : Z) : ulp 1 b V = 2 ^ (fexp64 (dg V + b) - b).
Proof. unfold ulp. now rewrite Z.div_1_r. Qed.

Lemma rounded_exact1 (b V G : Z) :
  2 ^ 53 <= V -> V = G * ulp 1 b V -> rounded 1 b V = V.
Proof.
  intros HV HG.
  rewrite (rounded_exact 1 ltac:(lia) b V G); [lia | lia | lia].
Qed.

(** *** Conversion of an integer *)

Lemma iter_xO (m d : positive) :
  Z.pos (Pos.iter xO m d) = Z.pos m * 2 ^ Z.pos d.
Proof.
  rewrite (Pos.iter_swap_gen _ _ Z.pos xO (Z.mul 2)) by reflexivity.
  change (Pos.iter (Z.mul 2) (Z.pos m) d) with (Z.shiftl (Z.pos m) (Z.pos d)).
  apply Z.shiftl_mul_pow2. lia.
Qed.

(** The conversion aligns the integer on at least 53 digits and rounds
    it. *)
Lemma normalize_roundExact (K : positive) (s : bool) :
  exists mz ez,
    binary_normalize 53 1024 (Z.pos K) 0 s = roundExact mz ez /\
    ez = Z.min 0 (dg (Z.pos K) - 53) /\
    Z.pos mz = Z.pos K * 2 ^ (- ez) /\
    2 ^ 52 <= Z.pos mz.
Proof.
  pose proof (dg_pos (Z.pos K)) as Hd.
  pose proof (dg_spec (Z.pos K) ltac:(lia)) as [Hlo _].
  cbn [binary_normalize]. unfold binary_round, shl_align.
  change (Z.pos (digits2_pos K)) with (Zdigits2 (Z.pos K)).
  rewrite Zdigits2_dg, fexp_fexp64.
  replace (fexp64 (dg (Z.pos K) + 0) - 0) with (dg (Z.pos K) - 53)
    by (unfold fexp64; lia).
  replace (fexp64 (dg (Z.pos K) + 0)) with (dg (Z.pos K) - 53)
    by (unfold fexp64; lia).
  destruct (dg (Z.pos K) - 53) as [|d|d] eqn:Hk.
  - exists K, 0. repeat split; try lia.
    replace (dg (Z.pos K) - 1) with 52 in Hlo by lia. exact Hlo.
  - exists K, 0. repeat split; try lia.
    pose proof (Z.pow_le_mono_r 2 52 (dg (Z.pos K) - 1) ltac:(lia) ltac:(lia)).
    lia.
  - exists (Pos.iter xO K d), (Z.neg d). split; [reflexivity |].
    split; [lia |]. rewrite iter_xO. split; [reflexivity |].
    change (Z.pos d) with (- Z.neg d). rewrite <- Hk.
    replace (2 ^ 52) with (2 ^ (dg (Z.pos K) - 1) * 2 ^ (- (dg (Z.pos K) - 53)))
      by (rewrite <- Z.pow_add_r by lia; f_equal; lia).
    apply Z.mul_le_mono_nonneg_r; [apply Z.pow_nonneg; lia | exact Hlo].
Qed.

Lemma normalize_shape (K : positive) (s : bool) :
  match binary_normalize 53 1024 (Z.pos K) 0 s with
  | S754_zero s' | S754_infinity s' | S754_finite s' _ _ => s' = false
  | S754_nan => False
  end.
Proof.
  destruct (normalize_roundExact K s) as (mz & ez & -> & _ & _ & Hmz).
  pose proof (roundExact_char (ez - 1) mz ez ltac:(lia) Hmz) as Hchar.
  destruct (roundExact mz ez); tauto.
Qed.

(** *** The ceiling of a scaled value *)

Lemma ceilZ_0 (b : Z) : F64.ceilZ 0 b = 0.
Proof. unfold F64.ceilZ. destruct (0 <=? b); reflexivity. Qed.

Lemma ceilZ_mono (v1 v2 b : Z) : v1 <= v2 -> F64.ceilZ v1 b <= F64.ceilZ v2 b.
Proof.
  intros Hv. unfold F64.ceilZ. destruct (Z.leb_spec 0 b) as [Hb | Hb].
  - apply Z.mul_le_mono_nonneg_r; [apply Z.pow_nonneg; lia | exact Hv].
  - assert (HU : 0 < 2 ^ (- b)) by (apply Z.pow_pos_nonneg; lia).
    pose proof (Z.div_le_mono (- v2) (- v1) _ HU ltac:(lia)). lia.
Qed.

(** The ceiling does not depend on the base at which a value is read. *)
Lemma ceilZ_rescale (m e b : Z) :
  b <= e -> F64.ceilZ (m * 2 ^ (e - b)) b = F64.ceilZ m e.
Proof.
  intros Hbe. unfold F64.ceilZ.
  destruct (Z.leb_spec 0 b) as [Hb | Hb];
    destruct (Z.leb_spec 0 e) as [He | He]; try lia.
  - rewrite <- Z.mul_assoc, <- Z.pow_add_r by lia. do 2 f_equal. lia.
  - replace (- (m * 2 ^ (e - b))) with (- (m * 2 ^ e) * 2 ^ (- b)).
    + rewrite Z.div_mul by (apply Z.pow_nonzero; lia). lia.
    + replace (e - b) with (e + - b) by lia. rewrite Z.pow_add_r by lia. lia.
  - replace (2 ^ (- b)) with (2 ^ (- e) * 2 ^ (e - b))
      by (rewrite <- Z.pow_add_r by lia; f_equal; lia).
    replace (- (m * 2 ^ (e - b))) with ((- m) * 2 ^ (e - b)) by lia.
    rewrite Z.div_mul_cancel_r; [reflexivity | |];
      apply Z.pow_nonzero; lia.
Qed.

Lemma ceilZ_pos (m : positive) (e : Z) : 0 < F64.ceilZ (Z.pos m) e.
Proof.
  unfold F64.ceilZ. destruct (Z.leb_spec 0 e) as [He | He].
  - apply Z.mul_pos_pos; [lia | apply Z.pow_pos_nonneg; lia].
  - assert (HU : 0 < 2 ^ (- e)) by (apply Z.pow_pos_nonneg; lia).
    assert (- Z.pos m / 2 ^ (- e) < 0); [| lia].
    apply Z.div_lt_upper_bound; lia.
Qed.

(** The ceiling of a binary64 of mantissa [m < 2 ^ 53] is an integer that
    binary64 represents: a mantissa below [2 ^ 53] times a power of two. *)
Lemma ceilZ_representable (m : positive) (e : Z) :
  Z.pos m < 2 ^ 53 ->
  exists m0 j,
    F64.ceilZ (Z.pos m) e = m0 * 2 ^ j /\ 0 < m0 < 2 ^ 53 /\ 0 <= j.
Proof.
  intros Hm. pose proof (ceilZ_pos m e) as Hpos. unfold F64.ceilZ in *.
  destruct (Z.leb_spec 0 e) as [He | He].
  - exists (Z.pos m), e. repeat split; lia.
  - exists (- (- Z.pos m / 2 ^ (- e))), 0.
    rewrite Z.mul_1_r. repeat split; try lia.
    assert (HU : 0 < 2 ^ (- e)) by (apply Z.pow_pos_nonneg; lia).
    assert (- Z.pos m <= - Z.pos m / 2 ^ (- e)); [| lia].
    apply Z.div_le_lower_bound; [lia |].
    assert (1 <= 2 ^ (- e)) by lia. nia.
Qed.

(** An integer that binary64 represents is converted exactly, and back. *)
Lemma to_int_normalize (K : positive) (s : bool) (m0 j : Z) :
  Z.pos K = m0 * 2 ^ j -> 0 < m0 < 2 ^ 53 -> 0 <= j ->
  F64.to_int (binary_normalize 53 1024 (Z.pos K) 0 s)
  = if Z.pos K <=? int64_max then Z.pos K else int64_min.
Proof.
  intros HK Hm0 Hj.
  destruct (normalize_roundExact K s) as (mz & ez & -> & Hez & Hmz & Hbig).
  set (b := ez - 1).
  pose proof (roundExact_char b mz ez ltac:(unfold b; lia) Hbig) as Hchar.
  replace (ez - b) with 1 in Hchar by (unfold b; lia).
  change (2 ^ 1) with 2 in Hchar.
  set (V := Z.pos mz * 2) in *.
  assert (HV : 2 ^ 53 <= V) by (unfold V; lia).
  assert (HdV : dg V + b = dg (Z.pos K)).
  { unfold V. replace (Z.pos mz * 2) with (Z.pos mz * 2 ^ 1) by lia.
    rewrite dg_mul_pow2, Hmz, dg_mul_pow2 by lia. unfold b. lia. }
  pose proof (dg_pos (Z.pos K)) as HdK.
  assert (Hexact : rounded 1 b V = V).
  { pose proof (ulp_shape 1 ltac:(lia) b V ltac:(lia)) as [Hk _].
    assert (Hu : ulp 1 b V = 2 ^ (dg (Z.pos K) - 53 - b))
      by (rewrite ulp_1, HdV; unfold fexp64; do 2 f_equal; lia).
    destruct (Z_le_gt_dec (dg (Z.pos K)) 53) as [Hsmall | Hlarge].
    - apply (rounded_exact1 b V (Z.pos mz) HV). rewrite Hu.
      replace (dg (Z.pos K) - 53 - b) with 1 by (unfold b; lia). reflexivity.
    - apply (rounded_exact1 b V (m0 * 2 ^ (j + 1 - (dg (Z.pos K) - 52))) HV).
      rewrite Hu. assert (Hez0 : ez = 0) by lia.
      assert (Hdm : dg (Z.pos K) = dg m0 + j)
        by (rewrite HK; apply dg_mul_pow2; lia).
      assert (dg m0 <= 53).
      { destruct (Z_lt_le_dec 53 (dg m0)) as [Hgt | Hle]; [| exact Hle].
        pose proof (dg_spec m0 ltac:(lia)) as [Hlo _].
        pose proof (Z.pow_le_mono_r 2 53 (dg m0 - 1) ltac:(lia) ltac:(lia)).
        lia. }
      rewrite <- Z.mul_assoc, <- Z.pow_add_r by (unfold b; lia).
      replace (j + 1 - (dg (Z.pos K) - 52) + (dg (Z.pos K) - 53 - b))
        with (j + 1) by (unfold b; lia).
      unfold V. rewrite Hmz, HK, Hez0, Z.pow_add_r by lia.
      change (2 ^ (- 0)) with 1. change (2 ^ 1) with 2. lia. }
  rewrite Hexact in Hchar.
  assert (HVK : V = Z.pos K * 2 ^ (- b)).
  { unfold V, b. rewrite Hmz. replace (- (ez - 1)) with (- ez + 1) by lia.
    rewrite Z.pow_add_r by lia. lia. }
  assert (HUb : 0 < 2 ^ (- b)) by (apply Z.pow_pos_nonneg; unfold b; lia).
  destruct (roundExact mz ez) as [s' | s' | | s' m e]; cbn [F64.to_int].
  - lia.
  - destruct Hchar as (_ & m & e & Hbe & He & Hm & Hval).
    replace (Z.pos K <=? int64_max) with false; [reflexivity |].
    symmetry. apply Z.leb_gt.
    assert (HKm : Z.pos K = m * 2 ^ e).
    { apply (Z.mul_reg_r _ _ (2 ^ (- b))); [lia |].
      rewrite <- HVK, Hval, <- Z.mul_assoc, <- Z.pow_add_r by (unfold b; lia).
      f_equal; f_equal; lia. }
    rewrite HKm.
    pose proof (Z.pow_le_mono_r 2 63 e ltac:(lia) ltac:(lia)).
    unfold int64_max. nia.
  - contradiction.
  - destruct Hchar as (-> & Hbe & He & Hm & _ & Hval).
    cbn [F64.signed]. unfold F64.truncZ.
    assert (Htr : (if 0 <=? e then Z.pos m * 2 ^ e
                   else Z.pos m ÷ 2 ^ (- e)) = Z.pos K).
    { destruct (Z.leb_spec 0 e) as [He0 | He0].
      - apply (Z.mul_reg_r _ _ (2 ^ (- b))); [lia |].
        rewrite <- HVK, <- Hval, <- Z.mul_assoc, <- Z.pow_add_r
          by (unfold b; lia).
        f_equal; f_equal; lia.
      - assert (Hme : Z.pos m = Z.pos K * 2 ^ (- e)).
        { apply (Z.mul_reg_r _ _ (2 ^ (e - b))); [apply Z.pow_nonzero; lia |].
          rewrite Hval, HVK, <- Z.mul_assoc, <- Z.pow_add_r by lia.
          f_equal; f_equal; lia. }
        rewrite Hme. apply Z.quot_mul. apply Z.pow_nonzero; lia. }
    rewrite Htr.
    replace (int64_min <=? Z.pos K) with true
      by (symmetry; apply Z.leb_le; unfold int64_min; lia).
    reflexivity.
Qed.

(** *** From the rounded product to the rank *)

Lemma rankBelow_roundExact (b : Z) (M : positive) (E : Z) :
  b < E -> 2 ^ 52 <= Z.pos M ->
  rankBelow (roundExact M E)
  = Z.min (F64.ceilZ (rounded 1 b (Z.pos M * 2 ^ (E - b))) b - 1) int64_max.
Proof.
  intros Hb HM. pose proof (roundExact_char b M E Hb HM) as Hchar.
  destruct (roundExact M E) as [s | s | | s m e]; unfold rankBelow;
    cbn [F64.Ceil F64.to_int].
  - destruct Hchar as (_ & -> & _). rewrite ceilZ_0. reflexivity.
  - destruct Hchar as (_ & m & e & Hbe & He & Hm & ->).
    rewrite ceilZ_rescale by lia. unfold F64.ceilZ.
    replace (0 <=? e) with true by (symmetry; apply Z.leb_le; lia).
    pose proof (Z.pow_le_mono_r 2 63 e ltac:(lia) ltac:(lia)).
    rewrite Z.min_r; [reflexivity | unfold int64_max; nia].
  - contradiction.
  - destruct Hchar as (-> & Hbe & He & Hm & _ & <-).
    rewrite ceilZ_rescale by lia. cbn [F64.signed].
    pose proof (ceilZ_pos m e) as Hpos.
    destruct (ceilZ_representable m e Hm) as (m0 & j & HK & Hm0 & Hj).
    destruct (F64.ceilZ (Z.pos m) e) as [|K|K]; try lia.
    unfold F64.prec, F64.emax.
    rewrite (to_int_normalize K false m0 j HK Hm0 Hj).
    destruct (Z.leb_spec (Z.pos K) int64_max) as [Hfit | Hbig].
    + rewrite wrap64_id, Z.min_l; unfold is_int64, int64_min, int64_max in *;
        lia.
    + rewrite Z.min_r by lia. reflexivity.
Qed.

Lemma mul_finite (m1 : positive) (e1 : Z) (mn : positive) (en : Z) :
  F64.mul (S754_finite false m1 e1) (S754_finite false mn en)
  = roundExact (m1 * mn) (e1 + en).
Proof. reflexivity. Qed.

(** Multiplication by a fixed non-negative binary64, followed by the
    ceiling and the conversion, preserves the order of positive factors. *)
Lemma rankBelow_mul_mono (m1 : positive) (e1 : Z) (m2 : positive) (e2 : Z)
    (n : spec_float) :
  2 ^ 52 <= Z.pos m1 -> 2 ^ 52 <= Z.pos m2 ->
  Z.pos m1 * 2 ^ (e1 - Z.min e1 e2) <= Z.pos m2 * 2 ^ (e2 - Z.min e1 e2) ->
  nonneg n ->
  rankBelow (F64.mul (S754_finite false m1 e1) n)
  <= rankBelow (F64.mul (S754_finite false m2 e2) n).
Proof.
  intros H1 H2 Hle Hn.
  destruct n as [s | s | | s mn en]; cbn [nonneg] in Hn; try contradiction;
    subst s; try reflexivity.
  rewrite !mul_finite.
  set (c := Z.min e1 e2) in *.
  set (b := c + en - 1).
  assert (HM1 : 2 ^ 52 <= Z.pos (m1 * mn)) by nia.
  assert (HM2 : 2 ^ 52 <= Z.pos (m2 * mn)) by nia.
  rewrite (rankBelow_roundExact b (m1 * mn) (e1 + en))
    by (unfold b, c; lia || exact HM1).
  rewrite (rankBelow_roundExact b (m2 * mn) (e2 + en))
    by (unfold b, c; lia || exact HM2).
  apply Z.min_le_compat_r, Z.sub_le_mono_r, ceilZ_mono.
  replace (e1 + en - b) with (e1 - c + 1) by (unfold b; lia).
  replace (e2 + en - b) with (e2 - c + 1) by (unfold b; lia).
  rewrite !Z.pow_add_r by (unfold c; lia). change (2 ^ 1) with 2.
  assert (Hp1 : 0 < 2 ^ (e1 - c)) by (apply Z.pow_pos_nonneg; unfold c; lia).
  apply rounded_mono; rewrite ?Pos2Z.inj_mul; nia.
Qed.


(** *** The order of rounded values *)

(** The comparison of two scaled values does not depend on the base. *)
Lemma scaled_le_rebase (m1 e1 m2 e2 b c : Z) :
  b <= c -> c <= e1 -> c <= e2 ->
  m1 * 2 ^ (e1 - b) <= m2 * 2 ^ (e2 - b) ->
  m1 * 2 ^ (e1 - c) <= m2 * 2 ^ (e2 - c).
Proof.
  intros Hbc H1 H2 Hle.
  assert (Hp : 0 < 2 ^ (c - b)) by (apply Z.pow_pos_nonneg; lia).
  apply (Z.mul_le_mono_pos_r _ _ (2 ^ (c - b)) Hp).
  rewrite <- !Z.mul_assoc, <- !Z.pow_add_r by lia.
  replace (e1 - c + (c - b)) with (e1 - b) by lia.
  now replace (e2 - c + (c - b)) with (e2 - b) by lia.
Qed.

(** Rounding preserves the order of two exact values read at the same
    base and with the same denominator. *)
Lemma round_ordered (D b V1 V2 : Z) (q1 : positive) (e1 : Z) (loc1 : location)
    (q2 : positive) (e2 : Z) (loc2 : location) :
  0 < D -> -1074 <= b -> b < e1 -> b < e2 ->
  2 ^ 52 <= Z.pos q1 -> 2 ^ 52 <= Z.pos q2 ->
  located (2 ^ (e1 - b - 1) * D) V1 (shr_record_of_loc (Z.pos q1) loc1) ->
  located (2 ^ (e2 - b - 1) * D) V2 (shr_record_of_loc (Z.pos q2) loc2) ->
  V1 <= V2 ->
  ordered (binary_round_aux 53 1024 false (Z.pos q1) e1 loc1)
          (binary_round_aux 53 1024 false (Z.pos q2) e2 loc2).
Proof.
  intros HD Hb He1 He2 Hq1 Hq2 Hloc1 Hloc2 HV.
  pose proof (round_char D b HD V1 q1 e1 loc1 He1 Hq1 Hloc1) as Hc1.
  pose proof (round_char D b HD V2 q2 e2 loc2 He2 Hq2 Hloc2) as Hc2.
  assert (HV1 : 2 ^ 53 * D <= V1).
  { assert (HH : 0 < 2 ^ (e1 - b - 1) * D)
      by (apply Z.mul_pos_pos; [apply Z.pow_pos_nonneg; lia | exact HD]).
    pose proof (located_bounds _ _ _ HH Hloc1) as [Hlo _].
    replace (shr_m (shr_record_of_loc (Z.pos q1) loc1)) with (Z.pos q1) in Hlo
      by (destruct loc1 as [|[| |]]; reflexivity).
    assert (1 <= 2 ^ (e1 - b - 1))
      by (apply Z.lt_pred_le, Z.pow_pos_nonneg; lia).
    nia. }
  pose proof (rounded_mono D HD b V1 V2 HV1 HV) as Hmono.
  destruct (binary_round_aux 53 1024 false (Z.pos q1) e1 loc1)
    as [s1 | s1 | | s1 m1 f1];
    destruct (binary_round_aux 53 1024 false (Z.pos q2) e2 loc2)
    as [s2 | s2 | | s2 m2 f2];
    try contradiction; cbn [ordered].
  - destruct Hc1 as (_ & _ & Hlow). lia.
  - destruct Hc1 as (_ & _ & Hlow). lia.
  - destruct Hc1 as (_ & _ & Hlow). lia.
  - destruct Hc2 as (_ & _ & Hlow). lia.
  - destruct Hc1 as (-> & _), Hc2 as (-> & _). exact I.
  - destruct Hc1 as (-> & m & f & Hbf & Hf & Hm & Hval1).
    destruct Hc2 as (-> & Hbf2 & Hf2 & Hm2 & _ & Hval2).
    exfalso. rewrite Hval1, <- Hval2 in Hmono.
    assert (Hp : 0 < 2 ^ (f2 - b)) by (apply Z.pow_pos_nonneg; lia).
    pose proof (Z.pow_le_mono_r 2 (f2 - b + 1) (f - b) ltac:(lia) ltac:(lia))
      as Hpow.
    rewrite pow2_succ in Hpow by lia. nia.
  - destruct Hc2 as (_ & _ & Hlow). lia.
  - destruct Hc1 as (-> & Hbf1 & _ & _ & Hn1 & _), Hc2 as (-> & _).
    apply Hn1. lia.
  - destruct Hc1 as (-> & Hbf1 & _ & _ & Hn1 & Hval1).
    destruct Hc2 as (-> & Hbf2 & _ & _ & Hn2 & Hval2).
    split; [apply Hn1; lia |]. split; [apply Hn2; lia |].
    apply (scaled_le_rebase _ _ _ _ b); lia.
Qed.

(** *** The conversion of an integer is monotone *)

Lemma normalize_exponent (K : positive) :
  -52 <= Z.min 0 (dg (Z.pos K) - 53) <= 0.
Proof. pose proof (dg_pos (Z.pos K)). lia. Qed.

Lemma of_int_ordered (K1 K2 : positive) :
  Z.pos K1 <= Z.pos K2 ->
  ordered (F64.of_int (Z.pos K1)) (F64.of_int (Z.pos K2)).
Proof.
  intros HK. unfold F64.of_int, F64.prec, F64.emax.
  destruct (normalize_roundExact K1 false)
    as (mz1 & ez1 & -> & Hez1 & Hmz1 & Hbig1).
  destruct (normalize_roundExact K2 false)
    as (mz2 & ez2 & -> & Hez2 & Hmz2 & Hbig2).
  pose proof (normalize_exponent K1) as Hr1.
  pose proof (normalize_exponent K2) as Hr2.
  rewrite <- Hez1 in Hr1. rewrite <- Hez2 in Hr2.
  set (b := Z.min ez1 ez2 - 1).
  unfold roundExact.
  apply (round_ordered 1 b (Z.pos K1 * 2 ^ (- b)) (Z.pos K2 * 2 ^ (- b)));
    try (unfold b; lia); try assumption.
  - split; cbn [shr_record_of_loc shr_m shr_r shr_s]; [lia |].
    rewrite Z.mul_1_r, <- pow2_succ, Hmz1, <- Z.mul_assoc, <- Z.pow_add_r
      by (unfold b; lia).
    f_equal; f_equal; unfold b; lia.
  - split; cbn [shr_record_of_loc shr_m shr_r shr_s]; [lia |].
    rewrite Z.mul_1_r, <- pow2_succ, Hmz2, <- Z.mul_assoc, <- Z.pow_add_r
      by (unfold b; lia).
    f_equal; f_equal; unfold b; lia.
  - apply Z.mul_le_mono_nonneg_r; [apply Z.pow_nonneg; lia | exact HK].
Qed.

Lemma of_int_finite (K : positive) (s : bool) (m : positive) (e : Z) :
  F64.of_int (Z.pos K) = S754_finite s m e ->
  s = false /\ 2 ^ 52 <= Z.pos m < 2 ^ 53 /\ -52 <= e.
Proof.
  unfold F64.of_int, F64.prec, F64.emax. intros Hof.
  destruct (normalize_roundExact K false) as (mz & ez & Heq & Hez & Hmz & Hbig).
  pose proof (normalize_exponent K) as Hr. rewrite <- Hez in Hr.
  pose proof (roundExact_char (ez - 1) mz ez ltac:(lia) Hbig) as Hchar.
  rewrite <- Heq, Hof in Hchar.
  destruct Hchar as (-> & Hbe & _ & Hm & Hn & _).
  specialize (Hn ltac:(lia)). repeat split; lia.
Qed.

(** *** Division by 100.0 *)

Lemma of_int_100 :
  F64.of_int 100 = S754_finite false hundred64 (-46).
Proof. reflexivity. Qed.

Lemma div_eucl_div_mod (a c : Z) : Z.div_eucl a c = (a / c, a mod c).
Proof. unfold Z.div, Z.modulo. now destruct (Z.div_eucl a c). Qed.

(** The location of the exact quotient, from the remainder of the integer
    division by an even divisor. *)
Lemma new_location_located (T nb q k : Z) :
  0 < T -> 0 < nb -> Z.even nb = true -> 0 <= q -> 0 <= k < nb ->
  located (T * nb) ((q * nb + k) * (2 * T))
          (shr_record_of_loc q (new_location nb k)).
Proof.
  intros HT Hnb Heven Hq Hk.
  unfold new_location. rewrite Heven. unfold new_location_even.
  destruct (Z.eqb_spec k 0) as [-> | Hk0].
  - split; cbn [shr_record_of_loc shr_m shr_r shr_s]; lia.
  - destruct (Z.compare_spec (2 * k) nb) as [Heq | Hlt | Hgt];
      split; cbn [shr_record_of_loc shr_m shr_r shr_s]; nia.
Qed.

Lemma div_100 (m1 : positive) (e1 : Z) :
  2 ^ 52 <= Z.pos m1 < 2 ^ 53 -> -1000 <= e1 ->
  exists q : positive,
    Z.pos q = Z.pos m1 * 2 ^ 53 / Z.pos hundred64 /\
    2 ^ 52 <= Z.pos q /\
    F64.div (S754_finite false m1 e1) (S754_finite false hundred64 (-46))
    = binary_round_aux 53 1024 false (Z.pos q) (e1 - 7)
        (new_location (Z.pos hundred64)
           ((Z.pos m1 * 2 ^ 53) mod Z.pos hundred64)).
Proof.
  intros Hm He.
  assert (Hd : dg (Z.pos m1) = 53).
  { pose proof (dg_ge (Z.pos m1) 52 ltac:(lia) ltac:(lia)).
    pose proof (dg_53 (Z.pos m1) ltac:(lia) ltac:(lia)). lia. }
  assert (Hq : 2 ^ 52 <= Z.pos m1 * 2 ^ 53 / Z.pos hundred64).
  { apply Z.div_le_lower_bound; [lia |]. unfold hundred64. lia. }
  destruct (Z.pos m1 * 2 ^ 53 / Z.pos hundred64) as [|q|q] eqn:Hdiv; try lia.
  exists q. split; [reflexivity |]. split; [exact Hq |].
  unfold F64.div, F64.prec, F64.emax, SFdiv. cbn [xorb].
  unfold SFdiv_core_binary.
  rewrite Zdigits2_dg, Hd.
  change (Zdigits2 (Z.pos hundred64)) with 53.
  rewrite fexp_fexp64.
  replace (Z.min (fexp64 (53 + e1 - (53 + -46))) (e1 - -46)) with (e1 - 7)
    by (unfold fexp64; lia).
  replace (e1 - -46 - (e1 - 7)) with 53 by lia.
  rewrite Z.shiftl_mul_pow2 by lia.
  rewrite div_eucl_div_mod, Hdiv. reflexivity.
Qed.

Lemma div_100_ordered (m1 : positive) (e1 : Z) (m2 : positive) (e2 : Z) :
  2 ^ 52 <= Z.pos m1 < 2 ^ 53 -> -52 <= e1 ->
  2 ^ 52 <= Z.pos m2 < 2 ^ 53 -> -52 <= e2 ->
  Z.pos m1 * 2 ^ (e1 - Z.min e1 e2) <= Z.pos m2 * 2 ^ (e2 - Z.min e1 e2) ->
  ordered
    (F64.div (S754_finite false m1 e1) (S754_finite false hundred64 (-46)))
    (F64.div (S754_finite false m2 e2) (S754_finite false hundred64 (-46))).
Proof.
  intros Hm1 He1 Hm2 He2 Hle.
  destruct (div_100 m1 e1 Hm1 ltac:(lia)) as (q1 & Hq1 & Hbig1 & ->).
  destruct (div_100 m2 e2 Hm2 ltac:(lia)) as (q2 & Hq2 & Hbig2 & ->).
  set (c := Z.min e1 e2) in *.
  set (b := c - 8).
  assert (HD : 0 < Z.pos hundred64) by lia.
  assert (Hdiv : forall (m : positive) (e : Z) (q : positive),
             c <= e -> Z.pos q = Z.pos m * 2 ^ 53 / Z.pos hundred64 ->
             located (2 ^ (e - 7 - b - 1) * Z.pos hundred64)
                     (Z.pos m * 2 ^ 53 * 2 ^ (e - 7 - b))
                     (shr_record_of_loc (Z.pos q)
                        (new_location (Z.pos hundred64)
                           ((Z.pos m * 2 ^ 53) mod Z.pos hundred64)))).
  { intros m e q Hce Hq.
    pose proof (Z.div_mod (Z.pos m * 2 ^ 53) (Z.pos hundred64) ltac:(lia))
      as Hdm.
    pose proof (Z.mod_pos_bound (Z.pos m * 2 ^ 53) (Z.pos hundred64) HD)
      as Hmod.
    rewrite <- Hq in Hdm.
    replace (Z.pos m * 2 ^ 53 * 2 ^ (e - 7 - b))
      with ((Z.pos q * Z.pos hundred64
             + (Z.pos m * 2 ^ 53) mod Z.pos hundred64)
            * (2 * 2 ^ (e - 7 - b - 1))).
    - apply new_location_located; try lia; try reflexivity;
        apply Z.pow_pos_nonneg; unfold b; lia.
    - rewrite <- pow2_succ by (unfold b; lia).
      replace (e - 7 - b - 1 + 1) with (e - 7 - b) by lia.
      f_equal; lia. }
  apply (round_ordered (Z.pos hundred64) b
           (Z.pos m1 * 2 ^ 53 * 2 ^ (e1 - 7 - b))
           (Z.pos m2 * 2 ^ 53 * 2 ^ (e2 - 7 - b)));
    try (unfold b, c; lia); try assumption.
  - apply Hdiv; [unfold c; lia | exact Hq1].
  - apply Hdiv; [unfold c; lia | exact Hq2].
  - replace (e1 - 7 - b) with (e1 - c + 1) by (unfold b; lia).
    replace (e2 - 7 - b) with (e2 - c + 1) by (unfold b; lia).
    rewrite !pow2_succ by (unfold c; lia). nia.
Qed.

(** The quotient [float64(p) / 100.0] ascends with a positive [p]. *)
Lemma fraction_ordered (p1 p2 : Z) :
  0 < p1 -> p1 <= p2 -> ordered (fraction p1) (fraction p2).
Proof.
  intros H0 H12.
  destruct p1 as [|K1|K1]; try lia. destruct p2 as [|K2|K2]; try lia.
  pose proof (of_int_ordered K1 K2 H12) as Hord.
  pose proof (of_int_ordered K1 K1 ltac:(lia)) as Hord1.
  unfold fraction. rewrite of_int_100.
  destruct (F64.of_int (Z.pos K1)) as [| [|] | | [|] m1 e1] eqn:H1;
    try contradiction;
    destruct (F64.of_int (Z.pos K2)) as [| [|] | | [|] m2 e2] eqn:H2;
    try contradiction.
  - exact I.
  - apply of_int_finite in H1 as (_ & Hm1 & He1).
    cbn [ordered] in Hord1.
    pose proof (div_100_ordered m1 e1 m1 e1 Hm1 He1 Hm1 He1 ltac:(lia))
      as Hself.
    change (F64.div (S754_infinity false) (S754_finite false hundred64 (-46)))
      with (S754_infinity false).
    destruct (F64.div (S754_finite false m1 e1)
                (S754_finite false hundred64 (-46)))
      as [| [|] | | [|] m e]; cbn [ordered] in *; tauto.
  - apply of_int_finite in H1 as (_ & Hm1 & He1).
    apply of_int_finite in H2 as (_ & Hm2 & He2).
    destruct Hord as (_ & _ & Hle).
    now apply div_100_ordered.
Qed.

(** *** From ordered quotients to ordered indices *)

Lemma rankBelow_max (y : spec_float) : rankBelow y <= int64_max.
Proof. unfold rankBelow. apply wrap64_range. Qed.

Lemma rankBelow_ordered (x1 x2 n : spec_float) :
  ordered x1 x2 -> nonneg n ->
  rankBelow (F64.mul x1 n) <= rankBelow (F64.mul x2 n).
Proof.
  intros Hord Hn.
  destruct n as [s | s | | s mn en]; cbn [nonneg] in Hn; try contradiction;
    subst s;
    destruct x1 as [| [|] | | [|] m1 e1]; try contradiction;
    destruct x2 as [| [|] | | [|] m2 e2]; try contradiction;
    try reflexivity;
    try (change (rankBelow (F64.mul (S754_infinity false) _))
           with int64_max; apply rankBelow_max).
  cbn [ordered] in Hord. destruct Hord as (H1 & H2 & Hle).
  now apply rankBelow_mul_mono.
Qed.

(** The percentile 0: the quotient is the positive zero, and the index is
    0 unless the length exceeds the binary64 range, where every percentile
    gives the same index. *)
Lemma rankBelow_zero (N : Z) (x n : spec_float) :
  0 < N -> ordered x x -> nonneg n ->
  clampIndex N (rankBelow (F64.mul (S754_zero false) n))
  <= clampIndex N (rankBelow (F64.mul x n)).
Proof.
  intros HN Hx Hn.
  pose proof (clampIndex_range N (rankBelow (F64.mul x n)) HN) as Hr.
  destruct n as [s | s | | s mn en]; cbn [nonneg] in Hn; try contradiction;
    subst s.
  - change (rankBelow _) with (-1) at 1.
    unfold clampIndex at 1. cbn. destruct (0 >=? N) eqn:Hge; lia.
  - destruct x as [| [|] | | [|] m e]; try contradiction; reflexivity.
  - change (rankBelow _) with (-1) at 1.
    unfold clampIndex at 1. cbn. destruct (0 >=? N) eqn:Hge; lia.
Qed.

Lemma percentileIndex_mono (N p1 p2 : Z) :
  0 < N -> 0 <= p1 -> p1 <= p2 ->
  percentileIndex N p1 <= percentileIndex N p2.
Proof.
  intros HN H0 H12. unfold percentileIndex, rawIndex.
  assert (Hn : nonneg (F64.of_int N))
    by (destruct N as [|K|K]; try lia; apply normalize_shape).
  destruct (Z.eq_dec p2 0) as [-> | Hp2].
  - replace p1 with 0 by lia. lia.
  - destruct (Z.eq_dec p1 0) as [-> | Hp1].
    + change (fraction 0) with (S754_zero false).
      apply rankBelow_zero; [exact HN | | exact Hn].
      apply fraction_ordered; lia.
    + apply clampIndex_mono, rankBelow_ordered; [| exact Hn].
      apply fraction_ordered; lia.
Qed.

(** ** The percentile engine: monotonicity *)

Lemma StronglySorted_nth_error (l : list Z) :
  StronglySorted Z.le l ->
  forall (i j : nat) (a c : Z),
    (i <= j)%nat -> nth_error l i = Some a -> nth_error l j = Some c -> a <= c.
Proof.
  induction 1 as [|x l Hsorted IH Hall]; intros i j a c Hij Ha Hc.
  - destruct i; discriminate.
  - destruct i as [|i]; destruct j as [|j]; cbn [nth_error] in Ha, Hc.
    + assert (a = c) by congruence. lia.
    + injection Ha as <-.
      rewrite List.Forall_forall in Hall. apply Hall.
      eapply nth_error_In, Hc.
    + lia.
    + apply (IH i j); [lia | assumption | assumption].
Qed.

(** On an ascending sequence the element at the index of a percentile is
    not above the element at the index of a larger percentile. *)
Lemma percentile_value_mono (latencies : list Z) (p1 p2 v1 v2 : Z) :
  Sorted Z.le latencies ->
  0 <= p1 -> p1 <= p2 ->
  nth_error latencies
    (Z.to_nat (percentileIndex (Z.of_nat (length latencies)) p1)) = Some v1 ->
  nth_error latencies
    (Z.to_nat (percentileIndex (Z.of_nat (length latencies)) p2)) = Some v2 ->
  v1 <= v2.
Proof.
  intros Hsorted H0 H12 Hn1 Hn2.
  set (N := Z.of_nat (length latencies)) in *.
  assert (HN : 0 < N).
  { unfold N. destruct latencies; [| simpl; lia].
    destruct (Z.to_nat (percentileIndex N p1)); discriminate Hn1. }
  pose proof (percentileIndex_mono N p1 p2 HN H0 H12) as Hidx.
  pose proof (clampIndex_range N (rawIndex N p1) HN) as Hr1.
  apply (StronglySorted_nth_error latencies) with
    (i := Z.to_nat (percentileIndex N p1))
    (j := Z.to_nat (percentileIndex N p2)); try assumption.
  - apply Sorted_StronglySorted; [| exact Hsorted].
    intros x y z. apply Z.le_trans.
  - unfold percentileIndex in *. lia.
Qed.

Lemma hundred_sorted : Sorted Z.le hundred.
Proof.
  unfold hundred. cbn [seq map].
  repeat first [apply Sorted_cons | apply Sorted_nil
               | apply HdRel_cons | apply HdRel_nil];
    cbv; discriminate.
Qed.

(** Far outside the domain (0,100] of the percentile argument the order
    can be lost to the overflow of the subtraction. On the ascending
    sequence 1ns..100ns the least 64-bit integer as percentile makes the
    product [-2 ^ 63]: the conversion gives the least integer, the
    subtraction of 1 wraps to the greatest, and the clamp selects the last
    element, 100ns, above the 1ns selected for the percentile 0. No caller
    passes such an argument. *)
Lemma computePercentile_wraps_below_zero :
  hundred <> [] /\ Sorted Z.le hundred /\ int64_min <= 0 /\
  computePercentile hundred int64_min = Done (Some 100) /\
  computePercentile hundred 0 = Done (Some 1) /\
  ~ (exists v1 v2,
       computePercentile hundred int64_min = Done (Some v1) /\
       computePercentile hundred 0 = Done (Some v2) /\
       v1 <= v2).
Proof.
  assert (H1 : computePercentile hundred int64_min = Done (Some 100))
    by (vm_compute; reflexivity).
  assert (H2 : computePercentile hundred 0 = Done (Some 1))
    by (vm_compute; reflexivity).
  split; [discriminate |]. split; [exact hundred_sorted |].
  split; [discriminate |]. split; [exact H1 |]. split; [exact H2 |].
  intros (v1 & v2 & Hv1 & Hv2 & Hle).
  rewrite H1 in Hv1. rewrite H2 in Hv2.
  injection Hv1 as <-. injection Hv2 as <-. lia.
Qed.

(** C7. On a non-empty ascending sequence, the value returned for a
    percentile is not above the value returned for a larger percentile:
    [computePercentile] is monotonic on the domain (0,100] of its
    percentile argument, and on every non-negative percentile besides.
    (Where the product exceeds the range of [int] the conversion is the
    one of [F64.to_int].) *)
Theorem computePercentile_monotone (latencies : list Z) (p1 p2 : Z) :
  latencies <> [] ->
  Sorted Z.le latencies ->
  0 <= p1 -> p1 <= p2 ->
  exists v1 v2,
    computePercentile latencies p1 = Done (Some v1) /\
    computePercentile latencies p2 = Done (Some v2) /\
    v1 <= v2.
Proof.
  intros Hne Hsorted H0 H12.
  destruct (computePercentile_index latencies p1 Hne) as (v1 & Hv1 & Hn1).
  destruct (computePercentile_index latencies p2 Hne) as (v2 & Hv2 & Hn2).
  exists v1, v2. split; [exact Hv1 |]. split; [exact Hv2 |].
  exact (percentile_value_mono latencies p1 p2 v1 v2
           Hsorted H0 H12 Hn1 Hn2).
Qed.

Lemma computePercentile_monotone_witness :
  hundred <> [] /\ Sorted Z.le hundred /\ 0 <= 7 /\ 7 <= 95 /\
  exists v1 v2,
    computePercentile hundred 7 = Done (Some v1) /\
    computePercentile hundred 95 = Done (Some v2) /\
    v1 <= v2.
Proof.
  assert (Hne : hundred <> []) by discriminate.
  assert (H0 : 0 <= 7) by discriminate.
  assert (H12 : 7 <= 95) by discriminate.
  split; [exact Hne |]. split; [exact hundred_sorted |].
  repeat (split; [assumption |]).
  exact (computePercentile_monotone hundred 7 95 Hne hundred_sorted H0 H12).
Defined.

(** ** The snapshot: sorted latencies and ordered percentiles *)

Lemma insertSorted_perm (x : Z) (l : list Z) :
  Permutation (insertSorted x l) (x :: l).
Proof.
  induction l as [|y l IH]; cbn [insertSorted]; [reflexivity |].
  destruct (x <=? y); [reflexivity |].
  rewrite IH. apply perm_swap.
Qed.

Lemma sortSlice_perm (l : list Z) : Permutation (sortSlice l) l.
Proof.
  induction l as [|x l IH]; [reflexivity |].
  cbn [sortSlice fold_right]. fold (sortSlice l).
  rewrite insertSorted_perm. now constructor.
Qed.

Lemma insertSorted_sorted (x : Z) (l : list Z) :
  Sorted Z.le l -> Sorted Z.le (insertSorted x l).
Proof.
  induction 1 as [|y l Hsorted IH Hhd]; cbn [insertSorted].
  - repeat constructor.
  - destruct (Z.leb_spec x y) as [Hxy | Hxy].
    + repeat constructor; assumption.
    + constructor; [exact IH |].
      destruct Hhd as [|z l Hyz]; cbn [insertSorted].
      * constructor. lia.
      * destruct (x <=? z); constructor; lia.
Qed.

Lemma sortSlice_sorted (l : list Z) : Sorted Z.le (sortSlice l).
Proof.
  induction l as [|x l IH]; [constructor |].
  cbn [sortSlice fold_right]. fold (sortSlice l).
  now apply insertSorted_sorted.
Qed.

(** X2. In every snapshot with data the three percentiles are in order:
    [P50 <= P95 <= P99]. *)
Lemma CalculateLatency_percentiles_ordered (now : Z) (m : Metric) :
  activeSamples now m <> [] ->
  exists p50 p95 p99 : Z,
    CalculateLatency now m
    = Done {| MetricID := ID (Config m);
              SnapshotWindow := Window (Config m);
              Count := Z.of_nat (length (activeSamples now m));
              P50 := Some p50; P95 := Some p95; P99 := Some p99 |} /\
    p50 <= p95 <= p99.
Proof.
  intros Hact. unfold CalculateLatency. cbv zeta.
  replace (Z.of_nat (length (activeSamples now m)) >? 0) with true
    by (symmetry; apply Z.gtb_lt; destruct (activeSamples now m);
        [congruence | cbn [length]; lia]).
  set (latencies := sortSlice _).
  assert (Hne : latencies <> []).
  { intros Hnil. apply (f_equal (@length Z)) in Hnil.
    unfold latencies in Hnil.
    rewrite sortSlice_length, fold_left_collect in Hnil.
    destruct (activeSamples now m); [congruence | discriminate Hnil]. }
  pose proof (sortSlice_sorted
                (fold_left (fun ls l => ls ++ [LatencyVal l])
                           (activeSamples now m) [])) as Hsorted.
  fold latencies in Hsorted.
  destruct (computePercentile_index latencies 50 Hne) as (v50 & H50 & Hn50).
  destruct (computePercentile_index latencies 95 Hne) as (v95 & H95 & Hn95).
  destruct (computePercentile_index latencies 99 Hne) as (v99 & H99 & Hn99).
  exists v50, v95, v99. rewrite H50, H95, H99. cbn.
  split; [reflexivity |]. split.
  - apply (percentile_value_mono latencies 50 95); try assumption; lia.
  - apply (percentile_value_mono latencies 95 99); try assumption; lia.
Qed.

Lemma CalculateLatency_percentiles_ordered_witness :
  let m := {| Config := defaultMetricConfig 0 "checkout";
              Samples := [sampleOf (30000000, 1); sampleOf (10000000, 2);
                          sampleOf (20000000, 3)] |} in
  activeSamples 4 m <> [] /\
  exists p50 p95 p99 : Z,
    CalculateLatency 4 m
    = Done {| MetricID := ID (Config m);
              SnapshotWindow := Window (Config m);
              Count := Z.of_nat (length (activeSamples 4 m));
              P50 := Some p50; P95 := Some p95; P99 := Some p99 |} /\
    p50 <= p95 <= p99.
Proof.
  intros m.
  assert (Hne : activeSamples 4 m <> []) by (vm_compute; discriminate).
  split; [exact Hne |].
  exact (CalculateLatency_percentiles_ordered 4 m Hne).
Defined.

(** The scenario of the specification on a metric: 10ms, 20ms and 30ms
    recorded within the window. *)
Lemma CalculateLatency_scenario :
  let m := recordAll
             {| Config := {| ID := "checkout"; Window := Minute;
                             Percentiles := []; MaxSamples := 100;
                             CreatedAt := 0 |};
                Samples := [] |}
             [(10000000, 1); (20000000, 2); (30000000, 3)] in
  CalculateLatency 4 m
  = Done {| MetricID := "checkout"; SnapshotWindow := Minute; Count := 3;
            P50 := Some 20000000; P95 := Some 30000000;
            P99 := Some 30000000 |}.
Proof. vm_compute. reflexivity. Qed.

(** ** The snapshot: what it reports *)

Lemma activeSamples_nil_length (now : Z) (m : Metric) :
  activeSamples now m <> [] -> activeLatencies now m <> [].
Proof.
  intros Hact Hnil. apply (f_equal (@length Z)) in Hnil.
  unfold activeLatencies in Hnil.
  rewrite sortSlice_length, length_map in Hnil.
  destruct (activeSamples now m); [congruence | discriminate Hnil].
Qed.

(** The snapshot with data, in terms of the ascending active latencies. *)
Lemma CalculateLatency_active (now : Z) (m : Metric) :
  activeSamples now m <> [] ->
  CalculateLatency now m
  = (p50 <-- computePercentile (activeLatencies now m) 50 ;;
     p95 <-- computePercentile (activeLatencies now m) 95 ;;
     p99 <-- computePercentile (activeLatencies now m) 99 ;;
     Done {| MetricID := ID (Config m);
             SnapshotWindow := Window (Config m);
             Count := Z.of_nat (length (activeSamples now m));
             P50 := p50; P95 := p95; P99 := p99 |}).
Proof.
  intros Hact. unfold CalculateLatency, activeLatencies. cbv zeta.
  replace (Z.of_nat (length (activeSamples now m)) >? 0) with true
    by (symmetry; apply Z.gtb_lt; destruct (activeSamples now m);
        [congruence | cbn [length]; lia]).
  now rewrite fold_left_collect.
Qed.

Lemma CalculateLatency_inactive (now : Z) (m : Metric) :
  activeSamples now m = [] ->
  CalculateLatency now m
  = Done {| MetricID := ID (Config m);
            SnapshotWindow := Window (Config m);
            Count := 0; P50 := None; P95 := None; P99 := None |}.
Proof. intros Hact. unfold CalculateLatency. now rewrite Hact. Qed.

Lemma In_activeLatencies (now : Z) (m : Metric) (v : Z) :
  In v (activeLatencies now m) ->
  exists s, In s (activeSamples now m) /\ LatencyVal s = v.
Proof.
  intros Hv. unfold activeLatencies in Hv.
  apply (Permutation_in _ (sortSlice_perm _)) in Hv.
  apply in_map_iff in Hv. destruct Hv as (s & Hs & Hin). eauto.
Qed.

Lemma computePercentile_In (latencies : list Z) (p : Z) :
  latencies <> [] ->
  exists v, computePercentile latencies p = Done (Some v) /\ In v latencies.
Proof.
  intros Hne.
  destruct (computePercentile_index latencies p Hne) as (v & Hv & Hnth).
  exists v. split; [exact Hv |]. eapply nth_error_In, Hnth.
Qed.

(** X1. [CalculateLatency] always returns a snapshot. It carries the
    identifier and the window of the metric and the number of active
    samples. With no active sample the three percentiles are absent; with
    one or more each percentile is present and is the latency of an active
    sample. *)
Theorem CalculateLatency_reports_active (now : Z) (m : Metric) :
  exists snapshot,
    CalculateLatency now m = Done snapshot /\
    MetricID snapshot = ID (Config m) /\
    SnapshotWindow snapshot = Window (Config m) /\
    Count snapshot = Z.of_nat (length (activeSamples now m)) /\
    ((Count snapshot = 0 /\ P50 snapshot = None /\ P95 snapshot = None /\
      P99 snapshot = None) \/
     (0 < Count snapshot /\
      exists s50 s95 s99,
        In s50 (activeSamples now m) /\ In s95 (activeSamples now m) /\
        In s99 (activeSamples now m) /\
        P50 snapshot = Some (LatencyVal s50) /\
        P95 snapshot = Some (LatencyVal s95) /\
        P99 snapshot = Some (LatencyVal s99))).
Proof.
  destruct (activeSamples now m) as [|a active] eqn:Hact.
  - eexists. split; [now apply CalculateLatency_inactive |].
    cbn. repeat split. left. repeat split.
  - assert (Hne : activeSamples now m <> []) by (rewrite Hact; discriminate).
    pose proof (activeSamples_nil_length now m Hne) as Hl.
    destruct (computePercentile_In _ 50 Hl) as (v50 & H50 & Hi50).
    destruct (computePercentile_In _ 95 Hl) as (v95 & H95 & Hi95).
    destruct (computePercentile_In _ 99 Hl) as (v99 & H99 & Hi99).
    apply In_activeLatencies in Hi50, Hi95, Hi99.
    destruct Hi50 as (s50 & Hs50 & <-). destruct Hi95 as (s95 & Hs95 & <-).
    destruct Hi99 as (s99 & Hs99 & <-).
    eexists. split.
    + rewrite (CalculateLatency_active now m Hne), H50, H95, H99. reflexivity.
    + cbn [MetricID SnapshotWindow Count P50 P95 P99].
      rewrite Hact in *. repeat split. right.
      split; [cbn [length]; lia |].
      exists s50, s95, s99. repeat split; assumption.
Qed.

(** ** The snapshot: order of storage, ageing, nearest rank *)

Lemma Permutation_filter_list {A : Type} (f : A -> bool) (l1 l2 : list A) :
  Permutation l1 l2 -> Permutation (List.filter f l1) (List.filter f l2).
Proof.
  induction 1 as [| x l1 l2 Hp IH | x y l | l1 l2 l3 H12 IH12 H23 IH23];
    cbn [List.filter].
  - constructor.
  - destruct (f x); [now constructor | exact IH].
  - destruct (f x), (f y); try reflexivity. apply perm_swap.
  - now transitivity (List.filter f l2).
Qed.

(** An ascending arrangement of given values is unique. *)
Lemma Sorted_perm_eq (l1 l2 : list Z) :
  Sorted Z.le l1 -> Sorted Z.le l2 -> Permutation l1 l2 -> l1 = l2.
Proof.
  intros H1 H2.
  apply Sorted_StronglySorted in H1; [| intros x y z; apply Z.le_trans].
  apply Sorted_StronglySorted in H2; [| intros x y z; apply Z.le_trans].
  revert l2 H2. induction H1 as [|x l1 Hs1 IH Hall1]; intros l2 H2 Hp.
  - now apply Permutation_nil in Hp.
  - destruct H2 as [|y l2 Hs2 Hall2].
    + apply Permutation_sym, Permutation_nil in Hp. discriminate Hp.
    + rewrite List.Forall_forall in Hall1, Hall2.
      assert (Hxy : x = y).
      { assert (Hx : In x (y :: l2))
          by (apply (Permutation_in _ Hp); now left).
        assert (Hy : In y (x :: l1))
          by (apply (Permutation_in _ (Permutation_sym Hp)); now left).
        destruct Hx as [Hx | Hx]; [congruence |].
        destruct Hy as [Hy | Hy]; [congruence |].
        apply Hall1 in Hy. apply Hall2 in Hx. lia. }
      subst y. f_equal. apply IH; [exact Hs2 |].
      now apply Permutation_cons_inv in Hp.
Qed.

(** X3. The snapshot does not depend on the order in which the samples
    are stored: two metrics with the same configuration whose samples are
    a rearrangement of each other give the same snapshot at the same
    instant. *)
Theorem CalculateLatency_permutation (now : Z) (m1 m2 : Metric) :
  Config m1 = Config m2 -> Permutation (Samples m1) (Samples m2) ->
  CalculateLatency now m1 = CalculateLatency now m2.
Proof.
  intros Hc Hp.
  assert (Hcut : cutoffOf now m1 = cutoffOf now m2)
    by (unfold cutoffOf; now rewrite Hc).
  assert (Hact : Permutation (activeSamples now m1) (activeSamples now m2)).
  { rewrite !activeSamples_filter, Hcut. now apply Permutation_filter_list. }
  assert (Hlen : length (activeSamples now m1) = length (activeSamples now m2))
    by now apply Permutation_length.
  destruct (activeSamples now m1) as [|a1 act1] eqn:H1.
  - apply Permutation_nil in Hact.
    rewrite !CalculateLatency_inactive by assumption. now rewrite Hc.
  - assert (Hne1 : activeSamples now m1 <> []) by (rewrite H1; discriminate).
    assert (Hne2 : activeSamples now m2 <> []).
    { intros Hnil. rewrite Hnil in Hlen. discriminate Hlen. }
    rewrite (CalculateLatency_active now m1 Hne1).
    rewrite (CalculateLatency_active now m2 Hne2).
    assert (Hlat : activeLatencies now m1 = activeLatencies now m2).
    { unfold activeLatencies. rewrite H1.
      apply Sorted_perm_eq; try apply sortSlice_sorted.
      rewrite !sortSlice_perm. now apply Permutation_map. }
    rewrite Hlat, Hc, H1, Hlen. reflexivity.
Qed.

Lemma cutoffOf_mono (now1 now2 : Z) (m : Metric) :
  now1 <= now2 -> cutoffOf now1 m <= cutoffOf now2 m.
Proof. unfold cutoffOf, Add. lia. Qed.

Lemma filter_filter_implies {A : Type} (f g : A -> bool) (l : list A) :
  (forall a, g a = true -> f a = true) ->
  List.filter g l = List.filter g (List.filter f l).
Proof.
  intros Himp. induction l as [|a l IH]; [reflexivity |].
  cbn [List.filter]. destruct (f a) eqn:Hf; cbn [List.filter].
  - destruct (g a); congruence.
  - destruct (g a) eqn:Hg; [| exact IH].
    apply Himp in Hg. congruence.
Qed.

(** X4. Samples only age out. The samples active at a later instant are
    those active at the earlier instant that are still after the later
    cutoff, so the count of the later snapshot is not above the count of
    the earlier one. *)
Theorem CalculateLatency_ages (now1 now2 : Z) (m : Metric) :
  now1 <= now2 ->
  activeSamples now2 m
  = List.filter (fun s => After (RecordedAt s) (cutoffOf now2 m))
      (activeSamples now1 m) /\
  exists snapshot1 snapshot2,
    CalculateLatency now1 m = Done snapshot1 /\
    CalculateLatency now2 m = Done snapshot2 /\
    Count snapshot2 <= Count snapshot1.
Proof.
  intros Hle. pose proof (cutoffOf_mono now1 now2 m Hle) as Hcut.
  assert (Hact : activeSamples now2 m
                 = List.filter (fun s => After (RecordedAt s) (cutoffOf now2 m))
                     (activeSamples now1 m)).
  { rewrite !activeSamples_filter. apply filter_filter_implies.
    intros s. unfold After. rewrite !Z.ltb_lt. lia. }
  split; [exact Hact |].
  destruct (CalculateLatency_Done now1 m) as (a1 & b1 & c1 & H1 & _).
  destruct (CalculateLatency_Done now2 m) as (a2 & b2 & c2 & H2 & _).
  eexists _, _. split; [exact H1 |]. split; [exact H2 |].
  cbn [Count]. rewrite Hact.
  pose proof (filter_length_le
                (fun s => After (RecordedAt s) (cutoffOf now2 m))
                (activeSamples now1 m)). lia.
Qed.

Lemma CalculateLatency_ages_witness :
  let m := {| Config := defaultMetricConfig 0 "checkout";
              Samples := [sampleOf (10000000, 1); sampleOf (20000000, 30)] |} in
  60000000005 <= 60000000040 /\
  exists snapshot1 snapshot2,
    CalculateLatency 60000000005 m = Done snapshot1 /\
    CalculateLatency 60000000040 m = Done snapshot2 /\
    Count snapshot2 <= Count snapshot1.
Proof.
  intros m.
  assert (Hle : 60000000005 <= 60000000040) by lia.
  split; [exact Hle |].
  exact (proj2 (CalculateLatency_ages 60000000005 60000000040 m Hle)).
Defined.

(** X5. With at most 100 active samples (the default maximum of a
    metric) the three percentiles of the snapshot are the nearest-rank
    elements of the ascending active latencies: the element at index
    [ceil (p * N / 100) - 1], in exact arithmetic, for p = 50, 95 and
    99. *)
Theorem CalculateLatency_nearest_rank (now : Z) (m : Metric) :
  (0 < length (activeSamples now m) <= 100)%nat ->
  let N := Z.of_nat (length (activeSamples now m)) in
  exists snapshot,
    CalculateLatency now m = Done snapshot /\
    P50 snapshot
    = nth_error (activeLatencies now m) (Z.to_nat (nearestRankIndex N 50)) /\
    P95 snapshot
    = nth_error (activeLatencies now m) (Z.to_nat (nearestRankIndex N 95)) /\
    P99 snapshot
    = nth_error (activeLatencies now m) (Z.to_nat (nearestRankIndex N 99)).
Proof.
  intros HN N.
  assert (Hne : activeSamples now m <> [])
    by (destruct (activeSamples now m); [cbn in HN; lia | discriminate]).
  pose proof (activeSamples_nil_length now m Hne) as Hl.
  assert (Hlen : Z.of_nat (length (activeLatencies now m)) = N).
  { unfold activeLatencies. now rewrite sortSlice_length, length_map. }
  destruct (computePercentile_index _ 50 Hl) as (v50 & H50 & Hn50).
  destruct (computePercentile_index _ 95 Hl) as (v95 & H95 & Hn95).
  destruct (computePercentile_index _ 99 Hl) as (v99 & H99 & Hn99).
  rewrite Hlen in Hn50, Hn95, Hn99.
  rewrite percentileIndex_snapshot_exact in Hn50, Hn95, Hn99
    by (unfold N; cbn [In]; first [lia | tauto]).
  eexists. split.
  - rewrite (CalculateLatency_active now m Hne), H50, H95, H99. reflexivity.
  - cbn [P50 P95 P99]. now rewrite Hn50, Hn95, Hn99.
Qed.

Lemma CalculateLatency_nearest_rank_witness :
  let m := {| Config := defaultMetricConfig 0 "checkout";
              Samples := [sampleOf (30000000, 1); sampleOf (10000000, 2);
                          sampleOf (20000000, 3)] |} in
  (0 < length (activeSamples 4 m) <= 100)%nat /\
  exists snapshot,
    CalculateLatency 4 m = Done snapshot /\
    P50 snapshot = Some 20000000 /\ P95 snapshot = Some 30000000 /\
    P99 snapshot = Some 30000000.
Proof.
  intros m.
  assert (HN : (0 < length (activeSamples 4 m) <= 100)%nat)
    by (vm_compute; split; repeat constructor).
  split; [exact HN |].
  destruct (CalculateLatency_nearest_rank 4 m HN)
    as (snapshot & Hcall & H50 & H95 & H99).
  exists snapshot. split; [exact Hcall |].
  split; [exact H50 |]. split; [exact H95 | exact H99].
Defined.

Lemma CalculateLatency_permutation_witness :
  let c := defaultMetricConfig 0 "checkout" in
  let a := sampleOf (10000000, 1) in
  let b := sampleOf (20000000, 2) in
  Config {| Config := c; Samples := [a; b] |}
  = Config {| Config := c; Samples := [b; a] |} /\
  Permutation [a; b] [b; a] /\
  CalculateLatency 3 {| Config := c; Samples := [a; b] |}
  = CalculateLatency 3 {| Config := c; Samples := [b; a] |}.
Proof.
  intros c a b.
  assert (Hp : Permutation [a; b] [b; a]) by apply perm_swap.
  split; [reflexivity |]. split; [exact Hp |].
  exact (CalculateLatency_permutation 3
           {| Config := c; Samples := [a; b] |}
           {| Config := c; Samples := [b; a] |} eq_refl Hp).
Defined.

(** ** Recording, then the snapshot *)

Lemma RecordLatency_keeps_newest (now : Z) (m : Metric) (latency : Z) :
  0 < latency -> 0 < MaxSamples (Config m) ->
  exists older,
    Samples (fst (RecordLatency now m latency))
    = older ++ [sampleOf (latency, now)].
Proof.
  intros Hpos Hmax. rewrite (RecordLatency_accepts _ _ _ Hpos).
  cbn [fst Samples].
  destruct (Z.of_nat (length (Samples m ++ [_])) >? MaxSamples (Config m))
    eqn:Hfull.
  - destruct (Samples m) as [|s0 rest] eqn:Hs.
    + cbn [app length] in Hfull. apply Z.gtb_lt in Hfull. lia.
    + exists rest. reflexivity.
  - exists (Samples m). reflexivity.
Qed.

(** X6. A latency that has just been recorded is reported. For a metric
    with a positive maximum and a positive window, after a positive
    latency is recorded at [now], the snapshot taken at an instant
    [query] with [now <= query < now + window] counts the new sample as
    active, and its three percentiles are present. *)
Theorem RecordLatency_then_CalculateLatency
    (now query : Z) (m : Metric) (latency : Z) :
  0 < latency -> 0 < MaxSamples (Config m) ->
  0 < Window (Config m) <= int64_max ->
  now <= query < now + Window (Config m) ->
  let m' := fst (RecordLatency now m latency) in
  In (sampleOf (latency, now)) (activeSamples query m') /\
  exists snapshot p50 p95 p99,
    CalculateLatency query m' = Done snapshot /\
    0 < Count snapshot /\
    P50 snapshot = Some p50 /\ P95 snapshot = Some p95 /\
    P99 snapshot = Some p99.
Proof.
  intros Hpos Hmax Hw Hq m'.
  destruct (RecordLatency_keeps_newest now m latency Hpos Hmax)
    as (older & Hsamples).
  fold m' in Hsamples.
  assert (Hcfg : Config m' = Config m) by apply RecordLatency_Config.
  assert (Hin : In (sampleOf (latency, now)) (activeSamples query m')).
  { rewrite activeSamples_filter, Hsamples. apply filter_In. split.
    - apply in_or_app. right. now left.
    - rewrite cutoffOf_exact
        by (rewrite Hcfg; unfold int64_min, int64_max in *; lia).
      rewrite Hcfg. unfold After, sampleOf. cbn [RecordedAt snd].
      apply Z.ltb_lt. lia. }
  split; [exact Hin |].
  assert (Hne : activeSamples query m' <> [])
    by (intros Hnil; rewrite Hnil in Hin; contradiction).
  destruct (CalculateLatency_Done query m')
    as (p50 & p95 & p99 & Hcall & _ & Hsome).
  destruct (Hsome Hne) as ([v50 ->] & [v95 ->] & [v99 ->]).
  eexists _, v50, v95, v99. split; [exact Hcall |].
  cbn [Count P50 P95 P99]. repeat split.
  destruct (activeSamples query m'); [congruence | cbn [length]; lia].
Qed.

Lemma RecordLatency_then_CalculateLatency_witness :
  let m := {| Config := defaultMetricConfig 0 "checkout"; Samples := [] |} in
  let m' := fst (RecordLatency 10 m 5000000) in
  In (sampleOf (5000000, 10)) (activeSamples 20 m') /\
  exists snapshot p50 p95 p99,
    CalculateLatency 20 m' = Done snapshot /\
    0 < Count snapshot /\
    P50 snapshot = Some p50 /\ P95 snapshot = Some p95 /\
    P99 snapshot = Some p99.
Proof.
  intros m m'.
  apply (RecordLatency_then_CalculateLatency 10 20 m 5000000).
  - lia.
  - reflexivity.
  - vm_compute. split; [reflexivity | discriminate].
  - vm_compute. split; [discriminate | reflexivity].
Defined.

(** ** The order of the stored samples *)

Lemma chronological_snoc (samples : list LatencySample) (s : LatencySample) :
  chronological samples ->
  Forall (fun a => RecordedAt a <= RecordedAt s) samples ->
  chronological (samples ++ [s]).
Proof.
  unfold chronological. intros Hsorted Hall.
  induction Hsorted as [|a l Hs IH Hhd]; cbn [app].
  - repeat constructor.
  - inversion Hall as [|? ? Ha Hl]; subst.
    constructor; [now apply IH |].
    destruct Hhd as [|b l Hab]; cbn [app]; constructor; assumption.
Qed.

Lemma chronological_tail (samples : list LatencySample) :
  chronological samples -> chronological (skipn 1 samples).
Proof.
  unfold chronological. intros Hsorted.
  destruct Hsorted as [|a l Hs _]; cbn [skipn]; [constructor | exact Hs].
Qed.

Lemma Forall_skipn1 {A : Type} (P : A -> Prop) (l : list A) :
  Forall P l -> Forall P (skipn 1 l).
Proof. intros H. destruct H; cbn [skipn]; [constructor | assumption]. Qed.

Lemma RecordLatency_chronological (now : Z) (m : Metric) (latency : Z) :
  chronological (Samples m) ->
  Forall (fun s => RecordedAt s <= now) (Samples m) ->
  chronological (Samples (fst (RecordLatency now m latency))) /\
  Forall (fun s => RecordedAt s <= now)
    (Samples (fst (RecordLatency now m latency))).
Proof.
  intros Hc Hall. unfold RecordLatency.
  destruct (latency <=? 0); cbn [fst Samples]; [now split |].
  assert (Hc' : chronological
                  (Samples m ++ [{| LatencyVal := latency;
                                    RecordedAt := now |}]))
    by (apply chronological_snoc; assumption).
  assert (Hall' : Forall (fun s => RecordedAt s <= now)
                    (Samples m ++ [{| LatencyVal := latency;
                                      RecordedAt := now |}])).
  { apply Forall_app. split; [exact Hall |].
    repeat constructor. cbn. lia. }
  destruct (_ >? _); split;
    auto using chronological_tail, Forall_skipn1.
Qed.

(** X7. Recording keeps the samples in the order of their timestamps:
    if they are in that order, none is after [t0], and the record calls
    read a clock that does not go back from [t0], the samples are in the
    order of their timestamps after the calls (rejected and evicting calls
    included). *)
Theorem recordAll_chronological (m : Metric) (t0 : Z) (calls : list (Z * Z)) :
  chronological (Samples m) ->
  Forall (fun s => RecordedAt s <= t0) (Samples m) ->
  Sorted Z.le (t0 :: map snd calls) ->
  chronological (Samples (recordAll m calls)).
Proof.
  revert m t0. induction calls as [|c calls IH]; intros m t0 Hc Hall Hclock.
  - exact Hc.
  - unfold recordAll. cbn [fold_left]. fold (recordAll
      (fst (RecordLatency (snd c) m (fst c))) calls).
    cbn [map] in Hclock.
    inversion Hclock as [|? ? Hrest Hhd]; subst.
    inversion Hhd as [|? ? Hle]; subst.
    assert (Hall' : Forall (fun s => RecordedAt s <= snd c) (Samples m)).
    { eapply List.Forall_impl; [| exact Hall]. cbn. intros s Hs. lia. }
    destruct (RecordLatency_chronological (snd c) m (fst c) Hc Hall')
      as (Hc1 & Hall1).
    apply (IH _ (snd c)); assumption.
Qed.

Lemma recordAll_chronological_witness :
  let m := {| Config := defaultMetricConfig 0 "checkout"; Samples := [] |} in
  chronological (Samples (recordAll m [(10000000, 1); (20000000, 1);
                                       (30000000, 4)])).
Proof.
  intros m.
  apply (recordAll_chronological m 0).
  - constructor.
  - constructor.
  - repeat constructor; cbn; lia.
Defined.

Lemma filter_all {A : Type} (f : A -> bool) (l : list A) :
  Forall (fun a => f a = true) l -> List.filter f l = l.
Proof.
  induction 1 as [|a l Ha Hl IH]; cbn [List.filter]; [reflexivity |].
  now rewrite Ha, IH.
Qed.

(** X8. When the samples are in the order of their timestamps, the
    active samples of a snapshot are the most recent stored samples: the
    last [Count] of them. *)
Theorem activeSamples_most_recent (now : Z) (m : Metric) :
  chronological (Samples m) ->
  activeSamples now m
  = lastN (Z.of_nat (length (activeSamples now m))) (Samples m).
Proof.
  intros Hc. rewrite activeSamples_filter.
  set (f := fun s => After (RecordedAt s) (cutoffOf now m)).
  unfold chronological in Hc.
  apply Sorted_StronglySorted in Hc;
    [| intros x y z; cbn; apply Z.le_trans].
  unfold lastN. rewrite Nat2Z.id.
  induction Hc as [|a l Hs IH Hall]; [reflexivity |].
  cbn [List.filter]. destruct (f a) eqn:Hfa.
  - assert (Hl : List.filter f l = l).
    { apply filter_all. eapply List.Forall_impl; [| exact Hall].
      cbn. intros s Hs'. unfold f, After in *.
      apply Z.ltb_lt. apply Z.ltb_lt in Hfa. lia. }
    rewrite Hl. cbn [length]. now rewrite Nat.sub_diag.
  - pose proof (filter_length_le f l) as Hlen.
    cbn [length].
    replace (S (length l) - length (List.filter f l))%nat
      with (S (length l - length (List.filter f l)))%nat by lia.
    cbn [skipn]. exact IH.
Qed.

Lemma activeSamples_most_recent_witness :
  let m := {| Config := defaultMetricConfig 0 "checkout";
              Samples := [sampleOf (10000000, 1); sampleOf (20000000, 30)] |} in
  chronological (Samples m) /\
  activeSamples 60000000005 m = [sampleOf (20000000, 30)].
Proof.
  intros m.
  assert (Hc : chronological (Samples m))
    by (repeat constructor; cbn; lia).
  split; [exact Hc |].
  exact (activeSamples_most_recent 60000000005 m Hc).
Defined.

(** X20. The snapshot of a well-formed metric (at most [MaxSamples]
    stored samples) never counts more samples than are stored, nor more
    than the maximum of the metric. *)
Theorem CalculateLatency_count_bounded (now : Z) (id : string) (m : Metric) :
  wellFormed id m ->
  exists snapshot,
    CalculateLatency now m = Done snapshot /\
    0 <= Count snapshot <= Z.of_nat (length (Samples m)) /\
    Count snapshot <= MaxSamples (Config m).
Proof.
  intros (_ & _ & _ & Hlen).
  destruct (CalculateLatency_Done now m) as (a & b & c & Hcall & _).
  eexists. split; [exact Hcall |]. cbn [Count].
  rewrite activeSamples_filter.
  pose proof (filter_length_le
                (fun s => After (RecordedAt s) (cutoffOf now m)) (Samples m)).
  lia.
Qed.

Lemma CalculateLatency_count_bounded_witness :
  let m := {| Config := defaultMetricConfig 0 "checkout";
              Samples := [sampleOf (10000000, 1); sampleOf (20000000, 30)] |} in
  wellFormed "checkout" m /\
  exists snapshot,
    CalculateLatency 60000000005 m = Done snapshot /\
    0 <= Count snapshot <= 2 /\ Count snapshot <= 100.
Proof.
  intros m.
  assert (Hwf : wellFormed "checkout" m)
    by (repeat split; cbn; lia).
  split; [exact Hwf |].
  exact (CalculateLatency_count_bounded 60000000005 "checkout" m Hwf).
Defined.

(** ** The percentile engine: the percentiles 0 and 100 *)

(** A length below [2 ^ 53] converts to a finite binary64 whose integer
    part is the length. *)
Lemma of_int_small (K : positive) :
  Z.pos K < 2 ^ 53 ->
  exists m e,
    F64.of_int (Z.pos K) = S754_finite false m e /\
    F64.truncZ (Z.pos m) e = Z.pos K /\
    2 ^ 52 <= Z.pos m < 2 ^ 53 /\ -52 <= e.
Proof.
  intros HK.
  pose proof (to_int_normalize K false (Z.pos K) 0) as Hto.
  rewrite Z.mul_1_r in Hto. specialize (Hto eq_refl ltac:(lia) ltac:(lia)).
  replace (Z.pos K <=? int64_max) with true in Hto
    by (symmetry; unfold int64_max; lia).
  fold F64.prec F64.emax in Hto. fold (F64.of_int (Z.pos K)) in Hto.
  destruct (F64.of_int (Z.pos K)) as [s | s | | s m e] eqn:Hof;
    cbn [F64.to_int] in Hto; try (unfold int64_min in Hto; lia).
  destruct (of_int_finite K s m e Hof) as (-> & Hm & He).
  exists m, e. split; [reflexivity |]. split; [| now split].
  cbn [F64.signed] in Hto.
  destruct ((int64_min <=? F64.truncZ (Z.pos m) e)
            && (F64.truncZ (Z.pos m) e <=? int64_max));
    [exact Hto | unfold int64_min in Hto; lia].
Qed.

Lemma truncZ_le_ceilZ (m : positive) (e : Z) :
  F64.truncZ (Z.pos m) e <= F64.ceilZ (Z.pos m) e.
Proof.
  unfold F64.truncZ, F64.ceilZ. destruct (0 <=? e) eqn:He; [lia |].
  apply Z.leb_gt in He.
  assert (Hp : 0 < 2 ^ (- e)) by (apply Z.pow_pos_nonneg; lia).
  rewrite Z.quot_div_nonneg by lia.
  pose proof (Z.div_mod (Z.pos m) (2 ^ (- e)) ltac:(lia)) as Hdm.
  pose proof (Z.mod_pos_bound (Z.pos m) (2 ^ (- e)) Hp) as Hmod.
  pose proof (Z.div_mod (- Z.pos m) (2 ^ (- e)) ltac:(lia)) as Hdn.
  pose proof (Z.mod_pos_bound (- Z.pos m) (2 ^ (- e)) Hp) as Hmodn.
  nia.
Qed.

Lemma dg_mantissa (m : Z) : 2 ^ 52 <= m < 2 ^ 53 -> dg m = 53.
Proof.
  intros Hm.
  pose proof (dg_ge m 52 ltac:(lia) ltac:(lia)).
  pose proof (dg_le m 53 ltac:(lia) ltac:(lia) ltac:(lia)). lia.
Qed.

(** The product [1.0 * float64(N)] is [float64(N)]; the index before the
    clamps is at least [N - 1]. *)
Lemma rawIndex_100 (K : positive) :
  Z.pos K < 2 ^ 53 -> Z.pos K - 1 <= rawIndex (Z.pos K) 100.
Proof.
  intros HK. destruct (of_int_small K HK) as (m & e & Hof & Htr & Hm & He).
  unfold rawIndex. rewrite Hof.
  change (fraction 100) with (S754_finite false 4503599627370496 (-52)).
  rewrite mul_finite.
  rewrite (rankBelow_roundExact (e - 53)) by lia.
  set (V := Z.pos (4503599627370496 * m) * 2 ^ (-52 + e - (e - 53))).
  assert (HV : V = Z.pos m * 2 ^ 53).
  { unfold V. replace (-52 + e - (e - 53)) with 1 by lia.
    rewrite Pos2Z.inj_mul. change (Z.pos 4503599627370496) with (2 ^ 52).
    change (2 ^ 53) with (2 ^ 52 * 2 ^ 1). lia. }
  assert (Hdg : dg V = 106).
  { rewrite HV, dg_mul_pow2 by lia. rewrite dg_mantissa by lia. lia. }
  assert (Hulp : ulp 1 (e - 53) V = 2 ^ 53).
  { rewrite ulp_1, Hdg. unfold fexp64.
    replace (Z.max (106 + (e - 53) - 53) (-1074) - (e - 53)) with 53 by lia.
    reflexivity. }
  assert (Hexact : rounded 1 (e - 53) V = V).
  { apply (rounded_exact1 (e - 53) V (Z.pos m)).
    - rewrite HV. change (2 ^ 53) with (1 * 2 ^ 53) at 1.
      apply Z.mul_le_mono_nonneg_r; lia.
    - now rewrite Hulp. }
  rewrite Hexact, HV.
  replace 53 with (e - (e - 53)) at 1 by lia.
  rewrite ceilZ_rescale by lia.
  pose proof (truncZ_le_ceilZ m e) as Hle.
  unfold int64_max. lia.
Qed.

Lemma rawIndex_0 (K : positive) :
  Z.pos K < 2 ^ 53 -> rawIndex (Z.pos K) 0 = -1.
Proof.
  intros HK. destruct (of_int_small K HK) as (m & e & Hof & _).
  unfold rawIndex. rewrite Hof. reflexivity.
Qed.

(** X9. On a non-empty sequence of fewer than [2 ^ 53] latencies (every
    such length is a binary64), the percentile 0 selects the first element
    and every percentile from 100 on selects the last one: on ascending
    latencies, the least and the greatest. *)
Theorem computePercentile_extremes (latencies : list Z) :
  latencies <> [] -> Z.of_nat (length latencies) < 2 ^ 53 ->
  (exists first rest,
     latencies = first :: rest /\
     computePercentile latencies 0 = Done (Some first)) /\
  (exists front final,
     latencies = front ++ [final] /\
     forall p, 100 <= p -> computePercentile latencies p = Done (Some final)).
Proof.
  intros Hne Hlen.
  destruct (Z.of_nat (length latencies)) as [|K|K] eqn:HN;
    [destruct latencies; [congruence | discriminate HN] | | lia].
  split.
  - destruct latencies as [|first rest]; [congruence |].
    exists first, rest. split; [reflexivity |].
    destruct (computePercentile_index (first :: rest) 0 Hne)
      as (v & Hv & Hnth).
    rewrite HN in Hnth. unfold percentileIndex in Hnth.
    rewrite (rawIndex_0 K Hlen) in Hnth.
    replace (clampIndex (Z.pos K) (-1)) with 0 in Hnth
      by (unfold clampIndex; cbn [Z.ltb Z.compare];
          destruct (0 >=? Z.pos K) eqn:Hge; [| reflexivity];
          rewrite Z.geb_leb in Hge; apply Z.leb_le in Hge; lia).
    cbn in Hnth. now injection Hnth as <-.
  - destruct (exists_last Hne) as (front & final & Heq).
    exists front, final. split; [exact Heq |].
    intros p Hp.
    destruct (computePercentile_index latencies p Hne) as (v & Hv & Hnth).
    rewrite HN in Hnth.
    assert (Hidx : percentileIndex (Z.pos K) p = Z.pos K - 1).
    { pose proof (percentileIndex_mono (Z.pos K) 100 p
                    ltac:(lia) ltac:(lia) Hp) as Hmono.
      pose proof (clampIndex_range (Z.pos K) (rawIndex (Z.pos K) p)
                    ltac:(lia)) as Hr.
      pose proof (clampIndex_range (Z.pos K) (rawIndex (Z.pos K) 100)
                    ltac:(lia)) as Hr100.
      pose proof (clampIndex_mono (Z.pos K) _ _ (rawIndex_100 K Hlen)) as Hlow.
      assert (Hc : clampIndex (Z.pos K) (Z.pos K - 1) = Z.pos K - 1).
      { unfold clampIndex.
        replace (Z.pos K - 1 <? 0) with false by (symmetry; lia).
        destruct (Z.pos K - 1 >=? Z.pos K) eqn:Hge; [reflexivity |].
        reflexivity. }
      unfold percentileIndex in *. lia. }
    rewrite Hidx in Hnth. rewrite Hv. do 2 f_equal.
    rewrite Heq in Hnth, HN. rewrite length_app in HN. cbn [length] in HN.
    rewrite nth_error_app2 in Hnth by lia.
    replace (Z.to_nat (Z.pos K - 1) - length front)%nat with 0%nat in Hnth
      by lia.
    cbn in Hnth. congruence.
Qed.

Lemma computePercentile_extremes_witness :
  [10; 20; 30] <> [] /\ Z.of_nat (length [10; 20; 30]) < 2 ^ 53 /\
  (exists first rest,
     [10; 20; 30] = first :: rest /\
     computePercentile [10; 20; 30] 0 = Done (Some first)) /\
  (exists front final,
     [10; 20; 30] = front ++ [final] /\
     forall p, 100 <= p ->
               computePercentile [10; 20; 30] p = Done (Some final)).
Proof.
  assert (Hne : [10; 20; 30] <> []) by discriminate.
  assert (Hlen : Z.of_nat (length [10; 20; 30]) < 2 ^ 53) by reflexivity.
  split; [exact Hne |]. split; [exact Hlen |].
  exact (computePercentile_extremes [10; 20; 30] Hne Hlen).
Defined.

(** ** The store: registration *)

Lemma getOrCreateMetric_Done (now : Z) (ms : MetricStore) (id : string) :
  exists g m,
    getOrCreateMetric now ms id = Done ({| Metrics := Some g |}, m) /\
    g !! id = Some m /\
    match getMetric ms id with
    | Some m0 => Metrics ms = Some g /\ m = m0
    | None => g = {[ id := m ]} /\
              m = {| Config := defaultMetricConfig now id; Samples := [] |}
    end.
Proof.
  destruct (getMetric ms id) as [m0|] eqn:Hget.
  - rewrite (getOrCreateMetric_found now ms id m0 Hget).
    destruct ms as [[g|]]; [| discriminate Hget].
    exists g, m0. repeat split. exact Hget.
  - rewrite (getOrCreateMetric_not_found now ms id Hget).
    eexists _, _. split; [reflexivity |].
    split; [apply lookup_singleton_eq | now split].
Qed.

(** X10. [getOrCreateMetric] never panics, whatever the store (the nil
    map included); the metric it returns is registered under the
    identifier, and a second call for the same identifier returns the same
    metric and leaves the store as it is. *)
Theorem getOrCreateMetric_idempotent (now now' : Z) (ms : MetricStore)
    (id : string) :
  exists ms' m,
    getOrCreateMetric now ms id = Done (ms', m) /\
    getMetric ms' id = Some m /\
    getOrCreateMetric now' ms' id = Done (ms', m).
Proof.
  destruct (getOrCreateMetric_Done now ms id) as (g & m & Hcall & Hg & _).
  eexists _, m. split; [exact Hcall |].
  assert (Hget : getMetric {| Metrics := Some g |} id = Some m) by exact Hg.
  split; [exact Hget |]. now apply getOrCreateMetric_found.
Qed.

Lemma wellFormed_default (now : Z) (id : string) :
  wellFormed id {| Config := defaultMetricConfig now id; Samples := [] |}.
Proof. repeat split. cbn. lia. Qed.

Lemma RecordLatency_wellFormed (now : Z) (id : string) (m : Metric)
    (latency : Z) :
  wellFormed id m -> wellFormed id (fst (RecordLatency now m latency)).
Proof.
  intros (Hid & Hw & Hmax & Hlen). unfold RecordLatency.
  destruct (latency <=? 0); cbn [fst]; [now repeat split |].
  repeat split; cbn [Config Samples]; try assumption.
  destruct (_ >? _) eqn:Hfull.
  - rewrite length_skipn, length_app. cbn [length]. lia.
  - rewrite Z.gtb_ltb in Hfull. apply Z.ltb_ge in Hfull. exact Hfull.
Qed.

Lemma storeInvariant_insert (g : gmap string Metric) (id : string)
    (m : Metric) :
  storeInvariant {| Metrics := Some g |} -> wellFormed id m ->
  storeInvariant {| Metrics := Some (<[id := m]> g) |}.
Proof.
  intros Hinv Hm id' m'. unfold getMetric. cbn [Metrics mapLookup].
  destruct (decide (id' = id)) as [-> | Hne].
  - rewrite lookup_insert_eq. now intros [= <-].
  - rewrite lookup_insert_ne by congruence. apply Hinv.
Qed.

Lemma storeInvariant_empty : storeInvariant createNewMetricStore.
Proof. intros id m H. discriminate H. Qed.

Lemma storeInvariant_nil : storeInvariant {| Metrics := None |}.
Proof. intros id m H. discriminate H. Qed.

Lemma getOrCreateMetric_invariant (now : Z) (ms : MetricStore) (id : string)
    (g : gmap string Metric) (m : Metric) :
  storeInvariant ms ->
  getOrCreateMetric now ms id = Done ({| Metrics := Some g |}, m) ->
  storeInvariant {| Metrics := Some g |} /\ wellFormed id m.
Proof.
  intros Hinv Hcall.
  destruct (getOrCreateMetric_Done now ms id)
    as (g' & m' & Hcall' & Hg & Hcase).
  rewrite Hcall' in Hcall. injection Hcall as -> ->.
  destruct (getMetric ms id) as [m0|] eqn:Hget.
  - destruct Hcase as (Hms & ->). split.
    + destruct ms as [metrics]. cbn in Hms. now subst metrics.
    + now apply Hinv.
  - destruct Hcase as (-> & ->). split; [| apply wellFormed_default].
    rewrite <- insert_empty. apply storeInvariant_insert.
    + exact storeInvariant_empty.
    + apply wellFormed_default.
Qed.

(** X11. The store keeps its metrics well formed. If every registered
    metric is registered under its own identifier, has a positive window
    and a positive maximum and holds no more samples than its maximum,
    the same is true after [CreateMetric] (whenever it returns) and after
    [getOrCreateMetric], which always returns, a well-formed metric. *)
Theorem store_keeps_invariant (ms : MetricStore) :
  storeInvariant ms ->
  (forall config ms' r,
     CreateMetric ms config = Done (ms', r) -> storeInvariant ms') /\
  (forall now id,
     exists ms' m,
       getOrCreateMetric now ms id = Done (ms', m) /\
       storeInvariant ms' /\ wellFormed id m).
Proof.
  intros Hinv. split.
  - intros config ms' r. unfold CreateMetric.
    destruct (Z.leb_spec (Window config) 0) as [Hw | Hw];
      [now intros [= <- _] |].
    destruct (Z.leb_spec (MaxSamples config) 0) as [Hs | Hs];
      [now intros [= <- _] |].
    destruct ms as [[g|]]; cbn [Metrics mapStore bind]; [| discriminate].
    intros [= <- _]. apply storeInvariant_insert; [exact Hinv |].
    repeat split; cbn; lia.
  - intros now id.
    destruct (getOrCreateMetric_Done now ms id) as (g & m & Hcall & _).
    destruct (getOrCreateMetric_invariant now ms id g m Hinv Hcall).
    eexists _, _. split; [exact Hcall |]. now split.
Qed.

Lemma store_keeps_invariant_witness :
  storeInvariant createNewMetricStore /\
  exists ms' m,
    getOrCreateMetric 0 createNewMetricStore "checkout" = Done (ms', m) /\
    storeInvariant ms' /\ wellFormed "checkout" m.
Proof.
  split; [exact storeInvariant_empty |].
  exact (proj2 (store_keeps_invariant createNewMetricStore
                  storeInvariant_empty) 0 "checkout"%string).
Defined.

(** ** The server: recording *)

Section Recording.
Variable decode : string -> option recordLatencyRequest.
Variables nowCreate nowRecord : Z.

Lemma handleRecordLatency_accepted (s : Server) (r : Request) (id : string)
    (rq : recordLatencyRequest) :
  decode (Body r) = Some rq -> 0 < LatencyNs rq ->
  exists g m,
    getOrCreateMetric nowCreate (store s) id
    = Done ({| Metrics := Some g |}, m) /\
    handleRecordLatency decode nowCreate nowRecord s r id
    = Done ({| store :=
                 {| Metrics :=
                      Some (<[id := fst (RecordLatency nowRecord m
                                           (LatencyNs rq))]> g) |} |},
            writeHeader StatusAccepted).
Proof.
  intros Hdec Hpos. unfold handleRecordLatency. rewrite Hdec.
  replace (LatencyNs rq <=? 0) with false by (symmetry; lia).
  destruct (getOrCreateMetric_Done nowCreate (store s) id)
    as (g & m & Hcall & _).
  exists g, m. split; [exact Hcall |]. now rewrite Hcall.
Qed.

(** X12. A body that does not decode, or whose latency is zero or
    negative, is answered 400 and the store is not touched (no metric is
    created for the identifier). *)
Theorem handleRecordLatency_rejects (s : Server) (r : Request) (id : string) :
  decode (Body r) = None \/
  (exists rq, decode (Body r) = Some rq /\ LatencyNs rq <= 0) ->
  exists resp,
    handleRecordLatency decode nowCreate nowRecord s r id = Done (s, resp) /\
    Code resp = StatusBadRequest.
Proof.
  unfold handleRecordLatency. intros [-> | (rq & -> & Hle)].
  - eexists. split; reflexivity.
  - replace (LatencyNs rq <=? 0) with true by (symmetry; lia).
    eexists. split; reflexivity.
Qed.

(** X13. A body with a positive latency is answered 202, with no header
    and no body, on every store (the nil map included). Afterwards the
    identifier is registered, with the configuration it had or the default
    one; when the maximum of that configuration is positive, the newest
    sample of the metric is the posted latency at the instant of the
    recording; and when the identifier was registered already, the other
    identifiers are as before. *)
Theorem handleRecordLatency_records (s : Server) (r : Request) (id : string)
    (rq : recordLatencyRequest) :
  decode (Body r) = Some rq -> 0 < LatencyNs rq ->
  exists s' m,
    handleRecordLatency decode nowCreate nowRecord s r id
    = Done (s', writeHeader StatusAccepted) /\
    getMetric (store s') id = Some m /\
    Config m = match getMetric (store s) id with
               | Some m0 => Config m0
               | None => defaultMetricConfig nowCreate id
               end /\
    (0 < MaxSamples (Config m) ->
     exists older, Samples m = older ++ [sampleOf (LatencyNs rq, nowRecord)]) /\
    (is_Some (getMetric (store s) id) ->
     forall id', id' <> id ->
       getMetric (store s') id' = getMetric (store s) id').
Proof.
  intros Hdec Hpos.
  destruct (handleRecordLatency_accepted s r id rq Hdec Hpos)
    as (g & m0 & Hcall & Hhandle).
  destruct (getOrCreateMetric_Done nowCreate (store s) id)
    as (g' & m0' & Hcall' & _ & Hcase).
  rewrite Hcall in Hcall'. injection Hcall' as <- <-.
  eexists _, _. split; [exact Hhandle |].
  unfold getMetric at 1. cbn [store Metrics mapLookup].
  split; [apply lookup_insert_eq |].
  rewrite RecordLatency_Config. split; [| split].
  - destruct (getMetric (store s) id) as [m1|].
    + now destruct Hcase as (_ & ->).
    + now destruct Hcase as (_ & ->).
  - intros Hmax. now apply RecordLatency_keeps_newest.
  - intros [m1 Hm1] id' Hne. rewrite Hm1 in Hcase.
    destruct Hcase as (Hms & _).
    unfold getMetric. cbn [store Metrics mapLookup]. rewrite Hms.
    cbn [mapLookup]. now apply lookup_insert_ne.
Qed.

End Recording.


Lemma handleRecordLatency_rejects_witness :
  let r := {| Method := MethodPost; URLPath := latencyPath "checkout";
              Body := "{}" |} in
  (decodeExample (Body r) = None \/
   exists rq, decodeExample (Body r) = Some rq /\ LatencyNs rq <= 0) /\
  exists resp,
    handleRecordLatency decodeExample 0 1 mainServer r "checkout"
    = Done (mainServer, resp) /\
    Code resp = StatusBadRequest.
Proof.
  intros r.
  assert (Hbad : decodeExample (Body r) = None \/
                 exists rq, decodeExample (Body r) = Some rq /\
                            LatencyNs rq <= 0).
  { right. exists {| LatencyNs := 0 |}. split; [reflexivity | cbn; lia]. }
  split; [exact Hbad |].
  exact (handleRecordLatency_rejects decodeExample 0 1 mainServer r
           "checkout" Hbad).
Defined.

Lemma handleRecordLatency_records_witness :
  let r := {| Method := MethodPost; URLPath := latencyPath "checkout";
              Body := fiveMsBody |} in
  decodeExample (Body r) = Some {| LatencyNs := 5000000 |} /\
  exists s' m,
    handleRecordLatency decodeExample 0 1 mainServer r "checkout"
    = Done (s', writeHeader StatusAccepted) /\
    getMetric (store s') "checkout" = Some m /\
    Config m = defaultMetricConfig 0 "checkout".
Proof.
  intros r.
  assert (Hdec : decodeExample (Body r) = Some {| LatencyNs := 5000000 |})
    by reflexivity.
  split; [exact Hdec |].
  destruct (handleRecordLatency_records decodeExample 0 1 mainServer r
              "checkout" _ Hdec ltac:(cbn; lia))
    as (s' & m & Hcall & Hget & Hcfg & _).
  exists s', m. split; [exact Hcall |]. split; [exact Hget | exact Hcfg].
Defined.

(** ** The server: queries *)

(** X14. [handleGetMetric] answers 404 with the text [Metric not found!]
    for an identifier that is not registered, and for a registered one 200
    with the JSON content type and the snapshot of the metric at the
    instant of the request. It never panics and never changes the
    store. *)
Theorem handleGetMetric_answers (now : Z) (s : Server) (r : Request)
    (id : string) :
  match getMetric (store s) id with
  | None =>
      handleGetMetric now s r id
      = Done (s, httpError "Metric not found!" StatusNotFound)
  | Some metric =>
      exists snapshot,
        CalculateLatency now metric = Done snapshot /\
        handleGetMetric now s r id
        = Done (s, writeJSON (EncodedSnapshot snapshot))
  end.
Proof.
  unfold handleGetMetric. destruct (getMetric (store s) id) as [metric|].
  - destruct (CalculateLatency_Done now metric) as (a & b & c & Hcall & _).
    eexists. split; [exact Hcall |]. now rewrite Hcall.
  - reflexivity.
Qed.

Lemma snapshotsOf_snoc (clock : nat -> Z) (metrics : list Metric) (m : Metric) :
  snapshotsOf clock (metrics ++ [m])
  = (snapshots <-- snapshotsOf clock metrics ;;
     snapshot <-- CalculateLatency (clock (length snapshots)) m ;;
     Done (snapshots ++ [snapshot])).
Proof. unfold snapshotsOf. now rewrite fold_left_app. Qed.

(** The second loop of [handleMetrics] gives one snapshot for each metric,
    in the order of the metrics. *)
Lemma snapshotsOf_Done (clock : nat -> Z) (metrics : list Metric) :
  exists snapshots,
    snapshotsOf clock metrics = Done snapshots /\
    length snapshots = length metrics /\
    forall i m,
      nth_error metrics i = Some m ->
      exists snapshot,
        nth_error snapshots i = Some snapshot /\
        CalculateLatency (clock i) m = Done snapshot.
Proof.
  induction metrics as [|m metrics IH] using rev_ind.
  - exists []. split; [reflexivity |]. split; [reflexivity |].
    intros [|i] m H; discriminate H.
  - destruct IH as (snapshots & Hcall & Hlen & Hnth).
    destruct (CalculateLatency_Done (clock (length snapshots)) m)
      as (a & b & c & Hsnap & _).
    eexists (snapshots ++ [_]). split; [| split].
    + rewrite snapshotsOf_snoc, Hcall. cbn [bind]. rewrite Hsnap. reflexivity.
    + rewrite !length_app. cbn [length]. lia.
    + intros i m' Hi.
      destruct (Nat.lt_ge_cases i (length metrics)) as [Hlt | Hge].
      * rewrite nth_error_app1 in Hi by exact Hlt.
        destruct (Hnth i m' Hi) as (snapshot & Hs & Hc).
        exists snapshot. split; [| exact Hc].
        rewrite nth_error_app1; [exact Hs |].
        apply nth_error_Some. congruence.
      * rewrite nth_error_app2 in Hi by exact Hge.
        destruct (i - length metrics)%nat as [|k] eqn:Hk;
          [| destruct k; discriminate Hi].
        injection Hi as <-.
        assert (i = length snapshots) by lia. subst i.
        eexists. split; [| exact Hsnap].
        rewrite nth_error_app2 by lia. now rewrite Nat.sub_diag.
Qed.

Lemma snapshotsOf_ids (clock : nat -> Z) (metrics : list Metric)
    (snapshots : list MetricSnapshot) :
  snapshotsOf clock metrics = Done snapshots ->
  map MetricID snapshots = map (fun m => ID (Config m)) metrics.
Proof.
  intros Hcall.
  destruct (snapshotsOf_Done clock metrics)
    as (snapshots' & Hcall' & Hlen & Hnth).
  rewrite Hcall in Hcall'. injection Hcall' as <-.
  apply nth_error_ext. intros i. rewrite !nth_error_map.
  destruct (nth_error metrics i) as [m|] eqn:Hm.
  - destruct (Hnth i m Hm) as (snapshot & -> & Hc). cbn [option_map].
    destruct (CalculateLatency_Done (clock i) m) as (a & b & c & Hc' & _).
    rewrite Hc' in Hc. now injection Hc as <-.
  - apply nth_error_None in Hm.
    assert (Hs : nth_error snapshots i = None)
      by (apply nth_error_None; lia).
    now rewrite Hs.
Qed.

Section Listing.
Variable rangeOrder : gmap string Metric -> list (string * Metric).
Hypothesis rangeOrder_perm :
  forall g, Permutation (rangeOrder g) (map_to_list g).
Variable clock : nat -> Z.

Lemma rangeValues_perm (ms : MetricStore) :
  Permutation (rangeValues rangeOrder (Metrics ms)) (registeredMetrics ms).
Proof.
  unfold rangeValues, registeredMetrics. destruct (Metrics ms) as [g|];
    [| constructor].
  rewrite fold_left_collect. cbn [app].
  apply Permutation_map, rangeOrder_perm.
Qed.

(** X15. [handleMetrics] answers a request that is not a GET with 405.
    To a GET it answers 200 with a JSON list that has one snapshot for
    each registered metric (none on the empty and on the nil store),
    whatever the order in which the map is visited: the identifiers of the
    snapshots are those of the registered metrics, and every snapshot is
    the snapshot of a registered metric at one of the readings of the
    clock. The store is unchanged in both cases. *)
Theorem handleMetrics_lists (s : Server) (r : Request) :
  (Method r <> MethodGet ->
   exists resp,
     handleMetrics rangeOrder clock s r = Done (s, resp) /\
     Code resp = StatusMethodNotAllowed) /\
  (Method r = MethodGet ->
   exists snapshots,
     handleMetrics rangeOrder clock s r
     = Done (s, writeJSON (EncodedSnapshots snapshots)) /\
     length snapshots = length (registeredMetrics (store s)) /\
     Permutation (map MetricID snapshots)
       (map (fun m => ID (Config m)) (registeredMetrics (store s))) /\
     Forall (fun snapshot =>
               exists i m,
                 In m (registeredMetrics (store s)) /\
                 CalculateLatency (clock i) m = Done snapshot)
       snapshots).
Proof.
  unfold handleMetrics. split.
  - intros Hm. apply String.eqb_neq in Hm. rewrite Hm. cbn [negb].
    eexists. split; reflexivity.
  - intros Hm. apply String.eqb_eq in Hm. rewrite Hm. cbn [negb].
    pose proof (rangeValues_perm (store s)) as Hperm.
    destruct (snapshotsOf_Done clock
                (rangeValues rangeOrder (Metrics (store s))))
      as (snapshots & Hcall & Hlen & Hnth).
    exists snapshots. rewrite Hcall. cbn [bind]. split; [reflexivity |].
    split; [rewrite Hlen; now apply Permutation_length |].
    split.
    + rewrite (snapshotsOf_ids _ _ _ Hcall). now apply Permutation_map.
    + apply List.Forall_forall. intros snapshot Hin.
      apply In_nth_error in Hin. destruct Hin as (i & Hi).
      assert (Hlt : (i < length
                           (rangeValues rangeOrder (Metrics (store s))))%nat).
      { rewrite <- Hlen. apply nth_error_Some. congruence. }
      destruct (nth_error (rangeValues rangeOrder (Metrics (store s))) i)
        as [m|] eqn:Hm'; [| apply nth_error_None in Hm'; lia].
      destruct (Hnth i m Hm') as (snapshot' & Hs & Hc).
      rewrite Hi in Hs. injection Hs as <-.
      exists i, m. split; [| exact Hc].
      apply (Permutation_in _ Hperm). eapply nth_error_In, Hm'.
Qed.

End Listing.


Lemma handleMetrics_lists_witness :
  let r := {| Method := MethodGet; URLPath := "/metrics"; Body := "" |} in
  (forall g : gmap string Metric,
     Permutation (map_to_list g) (map_to_list g)) /\
  Method r = MethodGet /\
  exists snapshots,
    handleMetrics map_to_list (fun _ => 2) {| store := checkoutStore |} r
    = Done ({| store := checkoutStore |},
            writeJSON (EncodedSnapshots snapshots)) /\
    length snapshots = length (registeredMetrics checkoutStore).
Proof.
  intros r.
  assert (Hperm : forall g : gmap string Metric,
             Permutation (map_to_list g) (map_to_list g))
    by (intros g; apply Permutation_refl).
  split; [exact Hperm |]. split; [reflexivity |].
  destruct (proj2 (handleMetrics_lists map_to_list Hperm (fun _ => 2)
                     {| store := checkoutStore |} r) eq_refl)
    as (snapshots & Hcall & Hlen & _).
  exists snapshots. split; [exact Hcall | exact Hlen].
Defined.

(** ** The server: the paths of a metric *)

Lemma TrimRight_without (c : ascii) (s : string) :
  without c s = true -> TrimRight s c = s.
Proof.
  induction s as [|a s IH]; [reflexivity |].
  cbn [without TrimRight]. intros H. apply andb_prop in H.
  destruct H as (Ha & Hs). rewrite (IH Hs).
  destruct s; [| reflexivity].
  apply negb_true_iff in Ha. now rewrite Ha.
Qed.

Lemma TrimRight_app (c : ascii) (a b : string) :
  b <> EmptyString -> TrimRight b c = b ->
  TrimRight (a ++ b)%string c = (a ++ b)%string.
Proof.
  intros Hne Hb. induction a as [|x a IH]; [exact Hb |].
  change (String x a ++ b)%string with (String x (a ++ b)%string).
  cbn [TrimRight]. rewrite IH.
  destruct (a ++ b)%string eqn:Hab; [| reflexivity].
  destruct a; [| discriminate Hab]. cbn in Hab. contradiction.
Qed.

Lemma Split_nonempty (sep : ascii) (s : string) : Split s sep <> [].
Proof.
  destruct s as [|a s]; [discriminate |]. cbn [Split].
  destruct (Ascii.eqb a sep); [discriminate |].
  destruct (Split s sep); discriminate.
Qed.

Lemma Split_without (sep : ascii) (s : string) :
  without sep s = true -> Split s sep = [s].
Proof.
  induction s as [|a s IH]; [reflexivity |].
  cbn [without Split]. intros H. apply andb_prop in H.
  destruct H as (Ha & Hs). apply negb_true_iff in Ha.
  now rewrite Ha, (IH Hs).
Qed.

Lemma Split_app (sep : ascii) (a b : string) :
  without sep a = true ->
  Split (a ++ String sep b)%string sep = a :: Split b sep.
Proof.
  induction a as [|x a IH].
  - intros _. change (EmptyString ++ String sep b)%string with (String sep b).
    cbn [Split]. now rewrite Ascii.eqb_refl.
  - change (String x a ++ String sep b)%string
      with (String x (a ++ String sep b)%string).
    cbn [without Split]. intros H. apply andb_prop in H.
    destruct H as (Hx & Ha). apply negb_true_iff in Hx.
    now rewrite Hx, (IH Ha).
Qed.

Lemma Trim_latencyPath (id : string) :
  Trim (latencyPath id) "/"
  = ("metrics" ++ String "/" (id ++ String "/" "latency"))%string.
Proof.
  unfold Trim, latencyPath.
  rewrite (TrimRight_app "/" "/metrics/" (id ++ "/latency")%string).
  - reflexivity.
  - destruct id; discriminate.
  - apply TrimRight_app; [discriminate | reflexivity].
Qed.

Lemma Split_latencyPath (id : string) :
  without "/" id = true ->
  Split (Trim (latencyPath id) "/") "/" = ["metrics"; id; "latency"]%string.
Proof.
  intros Hid. rewrite Trim_latencyPath.
  rewrite Split_app by reflexivity. rewrite Split_app by exact Hid.
  reflexivity.
Qed.

Lemma Trim_metricPath (id : string) :
  id <> EmptyString -> without "/" id = true ->
  Trim (metricPath id) "/" = ("metrics" ++ String "/" id)%string.
Proof.
  intros Hne Hid. unfold Trim, metricPath.
  rewrite (TrimRight_app "/" "/metrics/" id Hne (TrimRight_without _ _ Hid)).
  reflexivity.
Qed.

Lemma Split_metricPath (id : string) :
  id <> EmptyString -> without "/" id = true ->
  Split (Trim (metricPath id) "/") "/" = ["metrics"; id]%string.
Proof.
  intros Hne Hid. rewrite (Trim_metricPath id Hne Hid).
  rewrite Split_app by reflexivity. now rewrite Split_without.
Qed.

Section Routing.
Variable decode : string -> option recordLatencyRequest.
Variables nowCreate nowRecord nowSnapshot : Z.

(** X16. For an identifier without a slash, a POST to
    [/metrics/{id}/latency] is handled by [handleRecordLatency] for that
    identifier and, when the identifier is not empty, a GET of
    [/metrics/{id}] by [handleGetMetric]. *)
Theorem handleMetricsById_routes (s : Server) (r : Request) (id : string) :
  without "/" id = true ->
  (URLPath r = latencyPath id -> Method r = MethodPost ->
   handleMetricsById decode nowCreate nowRecord nowSnapshot s r
   = handleRecordLatency decode nowCreate nowRecord s r id) /\
  (URLPath r = metricPath id -> Method r = MethodGet -> id <> EmptyString ->
   handleMetricsById decode nowCreate nowRecord nowSnapshot s r
   = handleGetMetric nowSnapshot s r id).
Proof.
  intros Hid. unfold handleMetricsById. cbv zeta. split.
  - intros -> ->. now rewrite (Split_latencyPath id Hid).
  - intros -> -> Hne. now rewrite (Split_metricPath id Hne Hid).
Qed.

(** X17. Every other request is answered 404 and leaves the store as it
    is: the handler reaches [handleRecordLatency] only for a POST whose
    trimmed path has three components, the third being [latency], and
    [handleGetMetric] only for a GET whose trimmed path has two. *)
Theorem handleMetricsById_not_found (s : Server) (r : Request) :
  let comps := Split (Trim (URLPath r) "/") "/" in
  ~ (Method r = MethodPost /\
     exists first id, comps = [first; id; "latency"%string]) ->
  ~ (Method r = MethodGet /\ exists first id, comps = [first; id]) ->
  handleMetricsById decode nowCreate nowRecord nowSnapshot s r
  = Done (s, NotFound).
Proof.
  intros comps Hpost Hget. unfold handleMetricsById. cbv zeta.
  fold comps.
  destruct comps as [|c0 [|c1 [|c2 [|c3 rest]]]] eqn:Hc;
    try reflexivity.
  - change (Z.of_nat (length [c0; c1]) <? 2) with false.
    change (index [c0; c1] 1) with (Done c1).
    change (Z.of_nat (length [c0; c1]) =? 3) with false.
    change (Z.of_nat (length [c0; c1]) =? 2) with true.
    cbn [bind andb].
    destruct (String.eqb (Method r) MethodGet) eqn:Hm; [| reflexivity].
    apply String.eqb_eq in Hm. exfalso. apply Hget. eauto.
  - change (Z.of_nat (length [c0; c1; c2]) <? 2) with false.
    change (index [c0; c1; c2] 1) with (Done c1).
    change (index [c0; c1; c2] 2) with (Done c2).
    change (Z.of_nat (length [c0; c1; c2]) =? 3) with true.
    change (Z.of_nat (length [c0; c1; c2]) =? 2) with false.
    cbn [bind andb].
    destruct (String.eqb c2 "latency") eqn:H2; cbn [andb]; [| reflexivity].
    destruct (String.eqb (Method r) MethodPost) eqn:Hm; [| reflexivity].
    apply String.eqb_eq in H2, Hm. subst c2. exfalso. apply Hpost. eauto.
  - cbn [length].
    replace (Z.of_nat (S (S (S (S (length rest))))) <? 2) with false
      by (symmetry; apply Z.ltb_ge; lia).
    replace (Z.of_nat (S (S (S (S (length rest))))) =? 3) with false
      by (symmetry; apply Z.eqb_neq; lia).
    replace (Z.of_nat (S (S (S (S (length rest))))) =? 2) with false
      by (symmetry; apply Z.eqb_neq; lia).
    assert (Hidx : index (c0 :: c1 :: c2 :: c3 :: rest) 1 = Done c1).
    { unfold index. cbn [length].
      replace (Z.of_nat (S (S (S (S (length rest))))) <=? 1) with false
        by (symmetry; apply Z.leb_gt; lia).
      reflexivity. }
    rewrite Hidx. reflexivity.
Qed.

End Routing.


Lemma handleMetricsById_routes_witness :
  let post := {| Method := MethodPost; URLPath := latencyPath "checkout";
                 Body := fiveMsBody |} in
  let get := {| Method := MethodGet; URLPath := metricPath "checkout";
                Body := "" |} in
  without "/" "checkout" = true /\
  handleMetricsById decodeExample 0 1 2 mainServer post
  = handleRecordLatency decodeExample 0 1 mainServer post "checkout" /\
  handleMetricsById decodeExample 0 1 2 mainServer get
  = handleGetMetric 2 mainServer get "checkout".
Proof.
  intros post get.
  assert (Hid : without "/" "checkout" = true) by reflexivity.
  split; [exact Hid |]. split.
  - exact (proj1 (handleMetricsById_routes decodeExample 0 1 2 mainServer
                    post "checkout" Hid) eq_refl eq_refl).
  - apply (proj2 (handleMetricsById_routes decodeExample 0 1 2 mainServer
                    get "checkout" Hid)); [reflexivity | reflexivity |].
    discriminate.
Defined.

Lemma handleMetricsById_not_found_witness :
  let r := {| Method := "DELETE"; URLPath := metricPath "checkout";
              Body := "" |} in
  handleMetricsById decodeExample 0 1 2 {| store := checkoutStore |} r
  = Done ({| store := checkoutStore |}, NotFound).
Proof.
  intros r.
  apply (handleMetricsById_not_found decodeExample 0 1 2
           {| store := checkoutStore |} r).
  - intros (Hm & _). discriminate Hm.
  - intros (Hm & _). discriminate Hm.
Defined.

(** ** The server: every request is answered *)

Lemma handleGetMetric_Done (now : Z) (s : Server) (r : Request) (id : string) :
  exists resp, handleGetMetric now s r id = Done (s, resp).
Proof.
  unfold handleGetMetric. destruct (getMetric (store s) id) as [metric|].
  - destruct (CalculateLatency_Done now metric) as (a & b & c & Hcall & _).
    rewrite Hcall. eexists. reflexivity.
  - eexists. reflexivity.
Qed.

Lemma handleRecordLatency_Done
    (decode : string -> option recordLatencyRequest) (nowCreate nowRecord : Z)
    (s : Server) (r : Request) (id : string) :
  exists s' resp,
    handleRecordLatency decode nowCreate nowRecord s r id = Done (s', resp) /\
    (storeInvariant (store s) -> storeInvariant (store s')).
Proof.
  destruct (decode (Body r)) as [rq|] eqn:Hdec.
  - destruct (Z.leb_spec (LatencyNs rq) 0) as [Hle | Hpos].
    + unfold handleRecordLatency. rewrite Hdec.
      replace (LatencyNs rq <=? 0) with true by (symmetry; lia).
      eexists _, _. split; [reflexivity | trivial].
    + destruct (handleRecordLatency_accepted decode nowCreate nowRecord
                  s r id rq Hdec Hpos) as (g & m & Hcall & Hhandle).
      eexists _, _. split; [exact Hhandle |].
      intros Hinv. cbn [store].
      destruct (getOrCreateMetric_invariant _ _ _ _ _ Hinv Hcall)
        as (Hg & Hm).
      apply storeInvariant_insert; [exact Hg |].
      now apply RecordLatency_wellFormed.
  - unfold handleRecordLatency. rewrite Hdec.
    eexists _, _. split; [reflexivity | trivial].
Qed.

Section Requests.
Variable decode : string -> option recordLatencyRequest.
Variables nowCreate nowRecord nowSnapshot : Z.

Lemma handleMetricsById_cases (s : Server) (r : Request) :
  handleMetricsById decode nowCreate nowRecord nowSnapshot s r
  = Done (s, NotFound) \/
  (exists id,
     handleMetricsById decode nowCreate nowRecord nowSnapshot s r
     = handleRecordLatency decode nowCreate nowRecord s r id) \/
  (exists id,
     handleMetricsById decode nowCreate nowRecord nowSnapshot s r
     = handleGetMetric nowSnapshot s r id).
Proof.
  unfold handleMetricsById. cbv zeta.
  destruct (Split (Trim (URLPath r) "/") "/")
    as [|c0 [|c1 [|c2 [|c3 rest]]]]; try (left; reflexivity).
  - change (Z.of_nat (length [c0; c1]) <? 2) with false.
    change (index [c0; c1] 1) with (Done c1).
    change (Z.of_nat (length [c0; c1]) =? 3) with false.
    change (Z.of_nat (length [c0; c1]) =? 2) with true.
    cbn [bind andb].
    destruct (String.eqb (Method r) MethodGet); [| left; reflexivity].
    right. right. exists c1. reflexivity.
  - change (Z.of_nat (length [c0; c1; c2]) <? 2) with false.
    change (index [c0; c1; c2] 1) with (Done c1).
    change (index [c0; c1; c2] 2) with (Done c2).
    change (Z.of_nat (length [c0; c1; c2]) =? 3) with true.
    change (Z.of_nat (length [c0; c1; c2]) =? 2) with false.
    cbn [bind andb].
    destruct (String.eqb c2 "latency" && String.eqb (Method r) MethodPost);
      [| left; reflexivity].
    right. left. exists c1. reflexivity.
  - left. cbn [length].
    replace (Z.of_nat (S (S (S (S (length rest))))) <? 2) with false
      by (symmetry; apply Z.ltb_ge; lia).
    replace (Z.of_nat (S (S (S (S (length rest))))) =? 3) with false
      by (symmetry; apply Z.eqb_neq; lia).
    replace (Z.of_nat (S (S (S (S (length rest))))) =? 2) with false
      by (symmetry; apply Z.eqb_neq; lia).
    assert (Hidx : index (c0 :: c1 :: c2 :: c3 :: rest) 1 = Done c1).
    { unfold index. cbn [length].
      replace (Z.of_nat (S (S (S (S (length rest))))) <=? 1) with false
        by (symmetry; apply Z.leb_gt; lia).
      reflexivity. }
    rewrite Hidx. reflexivity.
Qed.

(** X18. [handleMetricsById] answers every request on every store: it
    does not panic (the index into the components is guarded by the
    length check, and the store of [main], whose map is nil, is served),
    and it keeps the registered metrics well formed. *)
Theorem handleMetricsById_answers (s : Server) (r : Request) :
  exists s' resp,
    handleMetricsById decode nowCreate nowRecord nowSnapshot s r
    = Done (s', resp) /\
    (storeInvariant (store s) -> storeInvariant (store s')).
Proof.
  destruct (handleMetricsById_cases s r) as [-> | [(id & ->) | (id & ->)]].
  - eexists _, _. split; [reflexivity | trivial].
  - apply handleRecordLatency_Done.
  - destruct (handleGetMetric_Done nowSnapshot s r id) as (resp & ->).
    eexists _, _. split; [reflexivity | trivial].
Qed.

End Requests.

(** ** The server: a recorded latency is reported *)

Lemma CalculateLatency_single (now : Z) (config : MetricConfig)
    (sample : LatencySample) :
  After (RecordedAt sample) (Add now (wrap64 (- Window config))) = true ->
  CalculateLatency now {| Config := config; Samples := [sample] |}
  = Done {| MetricID := ID config; SnapshotWindow := Window config;
            Count := 1;
            P50 := Some (LatencyVal sample); P95 := Some (LatencyVal sample);
            P99 := Some (LatencyVal sample) |}.
Proof.
  intros Hafter.
  set (m := {| Config := config; Samples := [sample] |}).
  assert (Hact : activeSamples now m = [sample]).
  { rewrite activeSamples_filter. unfold cutoffOf, m.
    cbn [Config Samples List.filter]. now rewrite Hafter. }
  assert (Hne : activeSamples now m <> []) by (rewrite Hact; discriminate).
  rewrite (CalculateLatency_active now m Hne).
  unfold activeLatencies. rewrite Hact.
  cbn [map sortSlice fold_right insertSorted].
  rewrite !computePercentile_singleton. reflexivity.
Qed.

(** X19. Recording and querying through the server. For an identifier
    not yet registered (on any store, the one of [main] included), a POST
    of a positive latency to [/metrics/{id}/latency] is answered 202, and
    a GET of [/metrics/{id}] less than a minute after the recording is
    answered with the snapshot of one sample: count 1, the window of one
    minute, and the three percentiles equal to the posted latency. *)
Theorem post_then_get
    (decode : string -> option recordLatencyRequest)
    (nowCreate nowRecord nowSnapshot t1 t2 t3 : Z)
    (s : Server) (id body body' : string) (rq : recordLatencyRequest) :
  without "/" id = true -> id <> EmptyString ->
  getMetric (store s) id = None ->
  decode body = Some rq -> 0 < LatencyNs rq ->
  nowRecord <= nowSnapshot < nowRecord + Minute ->
  exists s',
    handleMetricsById decode nowCreate nowRecord t1 s
      {| Method := MethodPost; URLPath := latencyPath id; Body := body |}
    = Done (s', writeHeader StatusAccepted) /\
    handleMetricsById decode t2 t3 nowSnapshot s'
      {| Method := MethodGet; URLPath := metricPath id; Body := body' |}
    = Done (s', writeJSON
                  (EncodedSnapshot
                     {| MetricID := id; SnapshotWindow := Minute; Count := 1;
                        P50 := Some (LatencyNs rq);
                        P95 := Some (LatencyNs rq);
                        P99 := Some (LatencyNs rq) |})).
Proof.
  intros Hid Hne Hnone Hdec Hpos Hq.
  set (post := {| Method := MethodPost; URLPath := latencyPath id;
                  Body := body |}).
  set (get := {| Method := MethodGet; URLPath := metricPath id;
                 Body := body' |}).
  destruct (handleRecordLatency_accepted decode nowCreate nowRecord s post id
              rq Hdec Hpos) as (g & m & Hcall & Hhandle).
  rewrite (getOrCreateMetric_not_found _ _ _ Hnone) in Hcall.
  injection Hcall as <- <-.
  eexists. split.
  - unfold handleMetricsById. cbv zeta.
    cbn [URLPath post]. rewrite (Split_latencyPath id Hid).
    exact Hhandle.
  - unfold handleMetricsById. cbv zeta.
    cbn [URLPath get]. rewrite (Split_metricPath id Hne Hid).
    change (Z.of_nat (length ["metrics"%string; id]) <? 2) with false.
    change (index ["metrics"%string; id] 1) with (Done id).
    change (Z.of_nat (length ["metrics"%string; id]) =? 3) with false.
    change (Z.of_nat (length ["metrics"%string; id]) =? 2) with true.
    cbn [bind andb Method]. change (String.eqb MethodGet MethodGet) with true.
    cbv iota. unfold handleGetMetric, getMetric.
    cbn [store Metrics mapLookup]. rewrite lookup_insert_eq.
    rewrite (RecordLatency_accepts _ _ _ Hpos).
    cbn [Config Samples app length fst].
    change (Z.of_nat 1 >? MaxSamples (defaultMetricConfig nowCreate id))
      with false. cbv iota.
    rewrite CalculateLatency_single; [reflexivity |].
    unfold After, Add. cbn [RecordedAt Window defaultMetricConfig].
    apply Z.ltb_lt. rewrite wrap64_id.
    + unfold Minute in *. cbn [RecordedAt sampleOf snd]. lia.
    + unfold is_int64, int64_min, int64_max, Minute. lia.
Qed.

Lemma post_then_get_witness :
  exists s',
    handleMetricsById decodeExample 0 10 0 mainServer
      {| Method := MethodPost; URLPath := latencyPath "checkout";
         Body := fiveMsBody |}
    = Done (s', writeHeader StatusAccepted) /\
    handleMetricsById decodeExample 0 0 20 s'
      {| Method := MethodGet; URLPath := metricPath "checkout"; Body := "" |}
    = Done (s', writeJSON
                  (EncodedSnapshot
                     {| MetricID := "checkout"; SnapshotWindow := Minute;
                        Count := 1; P50 := Some 5000000;
                        P95 := Some 5000000; P99 := Some 5000000 |})).
Proof.
  apply (post_then_get decodeExample 0 10 20 0 0 0 mainServer "checkout"
           fiveMsBody "" {| LatencyNs := 5000000 |}).
  - reflexivity.
  - discriminate.
  - reflexivity.
  - reflexivity.
  - cbn. lia.
  - unfold Minute. lia.
Defined.
